(** * tts-frontend-proto: the Token demonstration script, [main.py]

    The script builds one [processed_pb2.Token], assigns its four fields,
    renders it with [google.protobuf.json_format.MessageToJson] and prints
    the result.  The development below embeds

    - the Python values the script handles ([str] as a sequence of code
      points, [int] as [Z]), the exceptions it can meet, and the console;
    - the [Token] message of the generated module [processed_pb2];
    - [json_format.MessageToJson] with the keyword arguments the script
      leaves at their defaults, down to [json.dumps];
    - the script itself: [main] and the module body with its
      [__name__ == '__main__'] guard;
    - [json.loads], the reader of Python's [json] module, to say what a
      rendered text denotes.

    Two of these are not in the repository's sources.  [processed_pb2] is
    generated code of the repository; its [Token] is taken from the
    specification's data model.  [google.protobuf.json_format] and
    Python's [json] are third-party and standard-library code; they are
    embedded from their own sources ([json_format.py], [json/encoder.py],
    [json/decoder.py]), restricted to the field types a [Token] has. *)

From Stdlib Require Import List ZArith NArith Lia Bool Ascii String.
From Stdlib Require Import DecimalString DecimalZ.
Import ListNotations.

Set Warnings "-register-all".

Local Open Scope N_scope.

(** ** Python values, exceptions and the console *)

Module Py.

(** A Python [str] is a sequence of Unicode code points. *)
Definition codepoint := N.
Definition pystr := list codepoint.

(** An ASCII literal of the source text, character by character. *)
Definition lit (s : string) : pystr :=
  List.map N_of_ascii (list_ascii_of_string s).

Definition str_eqb (a b : pystr) : bool :=
  if list_eq_dec N.eq_dec a b then true else false.

(** [str(n)] for an [int]: optional minus sign, decimal digits. *)
Definition str_of_int (z : Z) : pystr :=
  lit (NilZero.string_of_int (Z.to_int z)).

Inductive exn :=
| AttributeError
| TypeError
| ValueError
| UnicodeEncodeError
| SerializeToJsonError
| ParseError.

Inductive result (A : Type) :=
| Ok (a : A)
| Raise (e : exn).
Arguments Ok {A} a.
Arguments Raise {A} e.

(** The text encodings a console stream may be opened with. *)
Inductive codec := ascii_codec | latin_1 | utf_8.

Definition is_surrogate (c : codepoint) : bool :=
  (0xD800 <=? c) && (c <=? 0xDFFF).

Definition utf8_char (c : codepoint) : result (list N) :=
  if c <? 0x80 then Ok [c]
  else if c <? 0x800 then Ok [0xC0 + c / 64; 0x80 + c mod 64]
  else if is_surrogate c then Raise UnicodeEncodeError
  else if c <? 0x10000 then
    Ok [0xE0 + c / 4096; 0x80 + (c / 64) mod 64; 0x80 + c mod 64]
  else if c <? 0x110000 then
    Ok [0xF0 + c / 262144; 0x80 + (c / 4096) mod 64;
        0x80 + (c / 64) mod 64; 0x80 + c mod 64]
  else Raise UnicodeEncodeError.

(** [str.encode(encoding, 'strict')] on one code point. *)
Definition encode_char (enc : codec) (c : codepoint) : result (list N) :=
  match enc with
  | ascii_codec => if c <? 0x80 then Ok [c] else Raise UnicodeEncodeError
  | latin_1 => if c <? 0x100 then Ok [c] else Raise UnicodeEncodeError
  | utf_8 => utf8_char c
  end.

Fixpoint encode (enc : codec) (s : pystr) : result (list N) :=
  match s with
  | [] => Ok []
  | c :: r =>
      match encode_char enc c with
      | Raise e => Raise e
      | Ok bs =>
          match encode enc r with
          | Raise e => Raise e
          | Ok rest => Ok (bs ++ rest)
          end
      end
  end.

(** What a run can observe and change: the arguments of the process, the
    encoding of [sys.stdout], the bytes written to it so far, and the
    argument of every [print] call so far. *)
Record world := mkWorld {
  argv : list pystr;
  stdout_encoding : codec;
  stdout : list N;
  printed : list pystr
}.

(** Statements run in a state-and-exception monad over the world. *)
Definition M (A : Type) := world -> result (A * world).

Definition ret {A} (a : A) : M A := fun w => Ok (a, w).

Definition bind {A B} (c : M A) (k : A -> M B) : M B :=
  fun w =>
    match c w with
    | Ok (a, w') => k a w'
    | Raise e => Raise e
    end.

Definition lift {A} (r : result A) : M A :=
  fun w =>
    match r with
    | Ok a => Ok (a, w)
    | Raise e => Raise e
    end.

Definition NEWLINE : codepoint := 10.

(** [print(s)]: the text and a newline go to [sys.stdout], which encodes
    them strictly. *)
Definition print (s : pystr) : M unit :=
  fun w =>
    match encode (stdout_encoding w) (s ++ [NEWLINE]) with
    | Raise e => Raise e
    | Ok bytes =>
        Ok (tt, {| argv := argv w;
                   stdout_encoding := stdout_encoding w;
                   stdout := stdout w ++ bytes;
                   printed := printed w ++ [s] |})
    end.

(** The exit status of the interpreter: 0 when the script ran to its end,
    1 when an exception reached the top level. *)
Definition exit_status {A} (r : result A) : Z :=
  match r with
  | Ok _ => 0%Z
  | Raise _ => 1%Z
  end.

End Py.

Import Py.

Notation "x <- c ;; k" := (bind c (fun x => k))
  (at level 61, c at next level, right associativity).

(** Values that can be assigned to an attribute or stored in a field. *)
Inductive value :=
| VInt (z : Z)
| VStr (s : pystr).

Definition value_eqb (a b : value) : bool :=
  match a, b with
  | VInt x, VInt y => Z.eqb x y
  | VStr x, VStr y => str_eqb x y
  | _, _ => false
  end.

(** ** The generated message module *)

Module processed_pb2.

(** Modelled from the spec: the generated module [processed_pb2] is not
    among the sources.  The spec's data model gives [Token] four fields,
    [name] (text) and [index], [span_from], [span_to] (integers), and its
    example output shows the JSON names [name], [index], [spanFrom],
    [spanTo] with the integers unquoted. *)
Record Token := mkToken {
  name : pystr;
  index : Z;
  span_from : Z;
  span_to : Z
}.

(** Modelled from the spec: [Token()], a message whose fields hold the
    defaults of their types. *)
Definition Token_new : M Token :=
  ret {| name := []; index := 0; span_from := 0; span_to := 0 |}.

(** The kinds of field the formatter tells apart here. *)
Inductive cpp_type := CPPTYPE_STRING | CPPTYPE_INT32 | CPPTYPE_INT64.

Inductive FieldDescriptor := f_name | f_index | f_span_from | f_span_to.

(** Modelled from the spec: the fields of the message descriptor, in the
    order of the spec's data model, taken to be the order of their field
    numbers. *)
Definition fields : list FieldDescriptor :=
  [f_name; f_index; f_span_from; f_span_to].

Definition field_name (f : FieldDescriptor) : pystr :=
  match f with
  | f_name => lit "name"
  | f_index => lit "index"
  | f_span_from => lit "span_from"
  | f_span_to => lit "span_to"
  end.

(** Modelled from the spec: [name] is text; the three integer fields are
    of a kind the formatter writes as unquoted numbers, as the spec's
    example output has them: 32-bit signed integers. *)
Definition field_cpp_type (f : FieldDescriptor) : cpp_type :=
  match f with
  | f_name => CPPTYPE_STRING
  | _ => CPPTYPE_INT32
  end.

Definition default_value (f : FieldDescriptor) : value :=
  match field_cpp_type f with
  | CPPTYPE_STRING => VStr []
  | _ => VInt 0
  end.

Definition to_upper (c : codepoint) : codepoint :=
  if (97 <=? c) && (c <=? 122) then c - 32 else c.

(** The schema compiler's rule for a field's JSON name: underscores are
    dropped and the character after one is put in upper case.  It gives
    the names of the spec's example output, [spanFrom] and [spanTo]. *)
Fixpoint ToJsonName_from (capitalize_next : bool) (input : pystr) : pystr :=
  match input with
  | [] => []
  | c :: r =>
      if c =? 95 then ToJsonName_from true r
      else if capitalize_next then to_upper c :: ToJsonName_from false r
      else c :: ToJsonName_from false r
  end.

Definition ToJsonName (input : pystr) : pystr := ToJsonName_from false input.

Definition json_name (f : FieldDescriptor) : pystr :=
  ToJsonName (field_name f).

Definition getattr (t : Token) (f : FieldDescriptor) : value :=
  match f with
  | f_name => VStr (name t)
  | f_index => VInt (index t)
  | f_span_from => VInt (span_from t)
  | f_span_to => VInt (span_to t)
  end.

(** The range of a 32-bit signed integer field. *)
Definition int32_ok (z : Z) : bool :=
  ((-2147483648 <=? z) && (z <=? 2147483647))%Z.

(** The runtime's check of a value against the type of a field: text must
    be encodable in UTF-8, an integer must lie in the range of the field's
    type; a value of another type is a [TypeError], a value of the right
    type that fails the check a [ValueError] (the Unicode error of the C
    runtime is one). *)
Definition CheckValue (f : FieldDescriptor) (v : value) : result value :=
  match field_cpp_type f, v with
  | CPPTYPE_STRING, VStr s =>
      match encode utf_8 s with
      | Ok _ => Ok v
      | Raise _ => Raise ValueError
      end
  | CPPTYPE_INT32, VInt z => if int32_ok z then Ok v else Raise ValueError
  | CPPTYPE_INT64, VInt z => Ok v
  | _, _ => Raise TypeError
  end.

(** The field of the message replaced by a checked value. *)
Definition store (t : Token) (f : FieldDescriptor) (v : value) : result Token :=
  match f, v with
  | f_name, VStr s =>
      Ok {| name := s; index := index t;
            span_from := span_from t; span_to := span_to t |}
  | f_index, VInt z =>
      Ok {| name := name t; index := z;
            span_from := span_from t; span_to := span_to t |}
  | f_span_from, VInt z =>
      Ok {| name := name t; index := index t;
            span_from := z; span_to := span_to t |}
  | f_span_to, VInt z =>
      Ok {| name := name t; index := index t;
            span_from := span_from t; span_to := z |}
  | _, _ => Raise TypeError
  end.

Definition set_field (t : Token) (f : FieldDescriptor) (v : value)
  : result Token :=
  match CheckValue f v with
  | Raise e => Raise e
  | Ok checked => store t f checked
  end.

Definition find_field (attr : pystr) : option FieldDescriptor :=
  List.find (fun f => str_eqb (field_name f) attr) fields.

(** Modelled from the spec: [token.attr = v] on the record of four named
    fields.  The attribute must be a field of the message and the value
    pass the runtime's check for the field's type; no other field of the
    message is looked at. *)
Definition setattr (t : Token) (attr : pystr) (v : value) : M Token :=
  match find_field attr with
  | None => lift (Raise AttributeError)
  | Some f => lift (set_field t f v)
  end.

(** [message.ListFields()]: the fields that are set, by field number.
    A scalar field without presence is set when it differs from its
    default. *)
Definition ListFields (t : Token) : list (FieldDescriptor * value) :=
  List.filter (fun fv => negb (value_eqb (snd fv) (default_value (fst fv))))
    (List.map (fun f => (f, getattr t f)) fields).

End processed_pb2.

(** ** Python's [json] module

    The writer, [dumps], follows [json/encoder.py]: [JSONEncoder] with
    its [indent] and [ensure_ascii] arguments, [sort_keys] left at
    [False].  The reader, [loads], follows [json/decoder.py] and
    [json/scanner.py].  Floating-point numbers are left out of both. *)

Module json.

(** *** The writer *)

Inductive jvalue :=
| JNull
| JBool (b : bool)
| JInt (z : Z)
| JStr (s : pystr)
| JArr (items : list jvalue)
| JObj (members : list (pystr * jvalue)).

Definition QUOTE : codepoint := 34.
Definition BACKSLASH : codepoint := 92.
Definition SPACE : codepoint := 32.

Definition hex_digit (n : N) : codepoint :=
  if n <? 10 then 48 + n else 87 + n.

(** ['{0:04x}'.format(n)] for [n < 0x10000]. *)
Definition hex4 (n : N) : pystr :=
  [hex_digit (n / 4096 mod 16); hex_digit (n / 256 mod 16);
   hex_digit (n / 16 mod 16); hex_digit (n mod 16)].

Definition u_escape (n : N) : pystr := BACKSLASH :: 117 :: hex4 n.

(** [ESCAPE_DCT]: the short escapes, and [\u00XX] for the other control
    characters. *)
Definition ESCAPE_DCT (c : codepoint) : option pystr :=
  if c =? BACKSLASH then Some [BACKSLASH; BACKSLASH]
  else if c =? QUOTE then Some [BACKSLASH; QUOTE]
  else if c =? 8 then Some [BACKSLASH; 98]
  else if c =? 12 then Some [BACKSLASH; 102]
  else if c =? 10 then Some [BACKSLASH; 110]
  else if c =? 13 then Some [BACKSLASH; 114]
  else if c =? 9 then Some [BACKSLASH; 116]
  else if c <? 0x20 then Some (u_escape c)
  else None.

(** The replacement of one matched character in
    [py_encode_basestring_ascii]. *)
Definition replace_ascii (c : codepoint) : pystr :=
  match ESCAPE_DCT c with
  | Some e => e
  | None =>
      if c <? 0x10000 then u_escape c
      else
        let n := c - 0x10000 in
        u_escape (N.lor 0xd800 (N.land (N.shiftr n 10) 0x3ff))
        ++ u_escape (N.lor 0xdc00 (N.land n 0x3ff))
  end.

(** [ESCAPE_ASCII] matches a backslash, a quote, and everything outside
    the printable ASCII range. *)
Definition matches_ESCAPE_ASCII (c : codepoint) : bool :=
  (c =? BACKSLASH) || (c =? QUOTE) || negb ((SPACE <=? c) && (c <=? 126)).

Definition py_encode_basestring_ascii (s : pystr) : pystr :=
  QUOTE :: List.flat_map
             (fun c => if matches_ESCAPE_ASCII c then replace_ascii c else [c]) s
        ++ [QUOTE].

(** [ESCAPE] matches the characters of [ESCAPE_DCT] only. *)
Definition py_encode_basestring (s : pystr) : pystr :=
  QUOTE :: List.flat_map
             (fun c => match ESCAPE_DCT c with Some e => e | None => [c] end) s
        ++ [QUOTE].

Definition newline_indent (indent level : nat) : pystr :=
  NEWLINE :: List.repeat SPACE (indent * level).

Section Encoder.

Variable ensure_ascii : bool.
Variable indent : option nat.

Definition encoder (s : pystr) : pystr :=
  if ensure_ascii then py_encode_basestring_ascii s
  else py_encode_basestring s.

Definition item_separator : pystr :=
  match indent with
  | Some _ => lit ","
  | None => lit ", "
  end.

Definition key_separator : pystr := lit ": ".

(** The text after an opening bracket, between two items, and before
    the closing bracket of a container at nesting depth [level]. *)
Definition after_open (level : nat) : pystr :=
  match indent with
  | Some n => newline_indent n (S level)
  | None => []
  end.

Definition between (level : nat) : pystr :=
  item_separator ++ after_open level.

Definition before_close (level : nat) : pystr :=
  match indent with
  | Some n => newline_indent n level
  | None => []
  end.

Fixpoint iterencode (level : nat) (o : jvalue) : pystr :=
  match o with
  | JNull => lit "null"
  | JBool true => lit "true"
  | JBool false => lit "false"
  | JInt z => str_of_int z
  | JStr s => encoder s
  | JArr [] => lit "[]"
  | JArr (x :: xs) =>
      lit "[" ++ after_open level ++ iterencode (S level) x
      ++ (fix rest (l : list jvalue) : pystr :=
            match l with
            | [] => []
            | y :: l' => between level ++ iterencode (S level) y ++ rest l'
            end) xs
      ++ before_close level ++ lit "]"
  | JObj [] => lit "{}"
  | JObj ((k, v) :: kvs) =>
      lit "{" ++ after_open level
      ++ encoder k ++ key_separator ++ iterencode (S level) v
      ++ (fix rest (l : list (pystr * jvalue)) : pystr :=
            match l with
            | [] => []
            | (k', v') :: l' =>
                between level ++ encoder k' ++ key_separator
                ++ iterencode (S level) v' ++ rest l'
            end) kvs
      ++ before_close level ++ lit "}"
  end.

End Encoder.

(** [json.dumps(obj, indent=indent, ensure_ascii=ensure_ascii)], keys in
    insertion order. *)
Definition dumps (obj : jvalue) (indent : option nat) (ensure_ascii : bool)
  : pystr :=
  iterencode ensure_ascii indent 0 obj.

(** *** The reader

    [json.loads] on texts whose numbers are integers: a fraction or an
    exponent is refused.  [None] stands for [JSONDecodeError]. *)

Definition is_whitespace (c : codepoint) : bool :=
  (c =? 32) || (c =? 9) || (c =? 10) || (c =? 13).

Fixpoint skip_ws (s : pystr) : pystr :=
  match s with
  | c :: r => if is_whitespace c then skip_ws r else s
  | [] => []
  end.

Definition hex_value (c : codepoint) : option N :=
  if (48 <=? c) && (c <=? 57) then Some (c - 48)
  else if (97 <=? c) && (c <=? 102) then Some (c - 87)
  else if (65 <=? c) && (c <=? 70) then Some (c - 55)
  else None.

(** [_decode_uXXXX]: four hexadecimal digits. *)
Definition decode_uXXXX (h1 h2 h3 h4 : codepoint) : option N :=
  match hex_value h1, hex_value h2, hex_value h3, hex_value h4 with
  | Some a, Some b, Some c, Some d => Some (((a * 16 + b) * 16 + c) * 16 + d)
  | _, _, _, _ => None
  end.

(** [BACKSLASH]: the characters a backslash may be followed by, other
    than [u]. *)
Definition unescape (e : codepoint) : option codepoint :=
  if e =? QUOTE then Some QUOTE
  else if e =? BACKSLASH then Some BACKSLASH
  else if e =? 47 then Some 47
  else if e =? 98 then Some 8
  else if e =? 102 then Some 12
  else if e =? 110 then Some 10
  else if e =? 114 then Some 13
  else if e =? 116 then Some 9
  else None.

Definition push (c : codepoint) (o : option (pystr * pystr))
  : option (pystr * pystr) :=
  match o with
  | Some (s, rest) => Some (c :: s, rest)
  | None => None
  end.

Definition is_high_surrogate (n : N) : bool := (0xd800 <=? n) && (n <=? 0xdbff).
Definition is_low_surrogate (n : N) : bool := (0xdc00 <=? n) && (n <=? 0xdfff).

(** [py_scanstring] in strict mode, from the character after the opening
    quote: the decoded text and what follows the closing quote. *)
Fixpoint scanstring (s : pystr) : option (pystr * pystr) :=
  match s with
  | [] => None
  | c :: r =>
      if c =? QUOTE then Some ([], r)
      else if c =? BACKSLASH then
        match r with
        | [] => None
        | e :: r1 =>
            if e =? 117 then
              match r1 with
              | h1 :: h2 :: h3 :: h4 :: r2 =>
                  match decode_uXXXX h1 h2 h3 h4 with
                  | None => None
                  | Some uni =>
                      if is_high_surrogate uni then
                        match r2 with
                        | b :: u :: g1 :: g2 :: g3 :: g4 :: r3 =>
                            if (b =? BACKSLASH) && (u =? 117) then
                              match decode_uXXXX g1 g2 g3 g4 with
                              | None => None
                              | Some uni2 =>
                                  if is_low_surrogate uni2 then
                                    push (0x10000
                                          + N.lor (N.shiftl (uni - 0xd800) 10)
                                                  (uni2 - 0xdc00))
                                         (scanstring r3)
                                  else push uni (scanstring r2)
                              end
                            else push uni (scanstring r2)
                        | _ => push uni (scanstring r2)
                        end
                      else push uni (scanstring r2)
                  end
              | _ => None
              end
            else
              match unescape e with
              | Some ch => push ch (scanstring r1)
              | None => None
              end
        end
      else if c <? 0x20 then None
      else push c (scanstring r)
  end.

Definition is_digit (c : codepoint) : bool := (48 <=? c) && (c <=? 57).

(** The digits at the head of [s], accumulated onto [acc]. *)
Fixpoint scan_digits (acc : N) (s : pystr) : N * pystr :=
  match s with
  | c :: r => if is_digit c then scan_digits (10 * acc + (c - 48)) r else (acc, s)
  | [] => (acc, [])
  end.

Definition starts_float_tail (s : pystr) : bool :=
  match s with
  | c :: _ => (c =? 46) || (c =? 101) || (c =? 69)
  | [] => false
  end.

(** [NUMBER_RE], integer part: [0], or a non-zero digit and more digits. *)
Definition scan_natural (s : pystr) : option (N * pystr) :=
  match s with
  | c :: r =>
      if c =? 48 then (if starts_float_tail r then None else Some (0, r))
      else if is_digit c then
        let (n, rest) := scan_digits (c - 48) r in
        if starts_float_tail rest then None else Some (n, rest)
      else None
  | [] => None
  end.

Definition scan_number (s : pystr) : option (Z * pystr) :=
  match s with
  | c :: r =>
      if c =? 45 then
        match scan_natural r with
        | Some (n, rest) => Some (Z.opp (Z.of_N n), rest)
        | None => None
        end
      else
        match scan_natural s with
        | Some (n, rest) => Some (Z.of_N n, rest)
        | None => None
        end
  | [] => None
  end.

Fixpoint strip_prefix (p s : pystr) : option pystr :=
  match p, s with
  | [], _ => Some s
  | a :: p', b :: s' => if a =? b then strip_prefix p' s' else None
  | _ :: _, [] => None
  end.

Definition scan_literal (s : pystr) : option (jvalue * pystr) :=
  match strip_prefix (lit "null") s with
  | Some r => Some (JNull, r)
  | None =>
      match strip_prefix (lit "true") s with
      | Some r => Some (JBool true, r)
      | None =>
          match strip_prefix (lit "false") s with
          | Some r => Some (JBool false, r)
          | None =>
              match scan_number s with
              | Some (z, r) => Some (JInt z, r)
              | None => None
              end
          end
      end
  end.

(** [scan_once], [JSONObject] and [JSONArray].  [scan_value] reads a
    value at the head of the text; [scan_members] reads the members of
    an object from the opening quote of a key to the closing brace;
    [scan_items] reads the items of an array from the first character
    of an item to the closing bracket. *)
Fixpoint scan_value (fuel : nat) (s : pystr) : option (jvalue * pystr) :=
  match fuel with
  | O => None
  | S fuel' =>
      match s with
      | [] => None
      | c :: r =>
          if c =? QUOTE then
            match scanstring r with
            | Some (t, rest) => Some (JStr t, rest)
            | None => None
            end
          else if c =? 123 then
            match skip_ws r with
            | c' :: r' =>
                if c' =? 125 then Some (JObj [], r')
                else
                  match scan_members fuel' (c' :: r') with
                  | Some (kvs, rest) => Some (JObj kvs, rest)
                  | None => None
                  end
            | [] => None
            end
          else if c =? 91 then
            match skip_ws r with
            | c' :: r' =>
                if c' =? 93 then Some (JArr [], r')
                else
                  match scan_items fuel' (c' :: r') with
                  | Some (xs, rest) => Some (JArr xs, rest)
                  | None => None
                  end
            | [] => None
            end
          else scan_literal s
      end
  end
with scan_members (fuel : nat) (s : pystr)
  : option (list (pystr * jvalue) * pystr) :=
  match fuel with
  | O => None
  | S fuel' =>
      match s with
      | q :: r =>
          if q =? QUOTE then
            match scanstring r with
            | None => None
            | Some (key, r1) =>
                match skip_ws r1 with
                | colon :: r2 =>
                    if colon =? 58 then
                      match scan_value fuel' (skip_ws r2) with
                      | None => None
                      | Some (v, r3) =>
                          match skip_ws r3 with
                          | d :: r4 =>
                              if d =? 125 then Some ([(key, v)], r4)
                              else if d =? 44 then
                                match scan_members fuel' (skip_ws r4) with
                                | Some (kvs, r5) => Some ((key, v) :: kvs, r5)
                                | None => None
                                end
                              else None
                          | [] => None
                          end
                      end
                    else None
                | [] => None
                end
            end
          else None
      | [] => None
      end
  end
with scan_items (fuel : nat) (s : pystr) : option (list jvalue * pystr) :=
  match fuel with
  | O => None
  | S fuel' =>
      match scan_value fuel' s with
      | None => None
      | Some (v, r1) =>
          match skip_ws r1 with
          | d :: r2 =>
              if d =? 93 then Some ([v], r2)
              else if d =? 44 then
                match scan_items fuel' (skip_ws r2) with
                | Some (xs, r3) => Some (v :: xs, r3)
                | None => None
                end
              else None
          | [] => None
          end
      end
  end.

(** [json.loads(s)]: one value, with white space around it and nothing
    else. *)
Definition loads (s : pystr) : option jvalue :=
  match scan_value (S (List.length s)) (skip_ws s) with
  | Some (v, rest) =>
      match skip_ws rest with
      | [] => Some v
      | _ :: _ => None
      end
  | None => None
  end.

(** [obj[key]] on a decoded object. *)
Definition get (o : jvalue) (key : pystr) : option jvalue :=
  match o with
  | JObj members =>
      match List.find (fun kv => str_eqb (fst kv) key) members with
      | Some (_, v) => Some v
      | None => None
      end
  | _ => None
  end.

End json.

Import json.

(** ** [google.protobuf.json_format]

    [MessageToJson] builds a [_Printer], turns the message into a
    dictionary with [_RegularMessageToJsonObject], and hands it to
    [json.dumps].  The branches for repeated, map, enum, message-typed and
    floating-point fields concern no field of [Token] and are left out. *)

Module pb_json.

Import processed_pb2.

Record Printer := mkPrinter {
  always_print_fields_with_no_presence : bool;
  preserving_proto_field_name : bool
}.

(** [js[key] = v] on a dictionary kept in insertion order. *)
Fixpoint dict_set (js : list (pystr * jvalue)) (key : pystr) (v : jvalue)
  : list (pystr * jvalue) :=
  match js with
  | [] => [(key, v)]
  | (k, old) :: r =>
      if str_eqb k key then (k, v) :: r else (k, old) :: dict_set r key v
  end.

Definition dict_has (js : list (pystr * jvalue)) (key : pystr) : bool :=
  List.existsb (fun kv => str_eqb (fst kv) key) js.

(** [_FieldToJsonObject]: text as it is, 64-bit integers as decimal
    text, other integers as numbers. *)
Definition FieldToJsonObject (f : FieldDescriptor) (v : value)
  : result jvalue :=
  match field_cpp_type f, v with
  | CPPTYPE_STRING, VStr s => Ok (JStr s)
  | CPPTYPE_INT64, VInt z => Ok (JStr (str_of_int z))
  | CPPTYPE_INT32, VInt z => Ok (JInt z)
  | _, _ => Raise SerializeToJsonError
  end.

Definition key_of (p : Printer) (f : FieldDescriptor) : pystr :=
  if preserving_proto_field_name p then field_name f else json_name f.

Fixpoint put_fields (p : Printer) (l : list (FieldDescriptor * value))
    (js : list (pystr * jvalue)) : result (list (pystr * jvalue)) :=
  match l with
  | [] => Ok js
  | (f, v) :: r =>
      match FieldToJsonObject f v with
      | Raise e => Raise e
      | Ok o => put_fields p r (dict_set js (key_of p f) o)
      end
  end.

Fixpoint put_defaults (p : Printer) (l : list FieldDescriptor)
    (js : list (pystr * jvalue)) : result (list (pystr * jvalue)) :=
  match l with
  | [] => Ok js
  | f :: r =>
      if dict_has js (key_of p f) then put_defaults p r js
      else
        match FieldToJsonObject f (default_value f) with
        | Raise e => Raise e
        | Ok o => put_defaults p r (dict_set js (key_of p f) o)
        end
  end.

(** [_RegularMessageToJsonObject]: the set fields first, then, when
    asked for, the unset ones with their defaults. *)
Definition RegularMessageToJsonObject (p : Printer) (message : Token)
  : result (list (pystr * jvalue)) :=
  match put_fields p (ListFields message) [] with
  | Raise e => Raise e
  | Ok js =>
      if always_print_fields_with_no_presence p
      then put_defaults p fields js
      else Ok js
  end.

Definition MessageToJsonObject (p : Printer) (message : Token)
  : result jvalue :=
  match RegularMessageToJsonObject p message with
  | Raise e => Raise e
  | Ok js => Ok (JObj js)
  end.

(** [MessageToJson] with its keyword arguments given. *)
Definition MessageToJson_kw (message : Token)
    (always_print_fields_with_no_presence preserving_proto_field_name : bool)
    (indent : option nat) (ensure_ascii : bool) : result pystr :=
  match MessageToJsonObject
          (mkPrinter always_print_fields_with_no_presence
                     preserving_proto_field_name) message with
  | Raise e => Raise e
  | Ok js => Ok (dumps js indent ensure_ascii)
  end.

(** [MessageToJson(message)]: every keyword argument at its default,
    [always_print_fields_with_no_presence=False],
    [preserving_proto_field_name=False], [indent=2],
    [ensure_ascii=True]. *)
Definition MessageToJson (message : Token) : result pystr :=
  MessageToJson_kw message false false (Some 2%nat) true.

(** *** Reading a message back

    [Parse(text, Token())] with [ignore_unknown_fields=False]. *)

(** [_DuplicateChecker]: the members of an object as a dictionary, a
    repeated key being an error. *)
Fixpoint DuplicateChecker (js seen : list (pystr * jvalue))
  : result (list (pystr * jvalue)) :=
  match js with
  | [] => Ok seen
  | (key, v) :: r =>
      if dict_has seen key then Raise ParseError
      else DuplicateChecker r (seen ++ [(key, v)])
  end.

(** A key names a field by the field's JSON name or, failing that, by its
    own name. *)
Definition field_of_key (key : pystr) : option FieldDescriptor :=
  match List.find (fun f => str_eqb (json_name f) key) fields with
  | Some f => Some f
  | None => find_field key
  end.

(** [_ConvertInteger] on a string: the decimal spelling the writer uses
    for integers.  The other spellings [int()] takes (a plus sign, leading
    zeros, underscores, white space) are refused here. *)
Definition integer_of_text (s : pystr) : result value :=
  match scan_number s with
  | Some (z, []) => Ok (VInt z)
  | _ => Raise ParseError
  end.

(** [_ConvertScalarFieldValue]: text for a text field, free of
    surrogates; a number, or its decimal spelling in a string, for an
    integer field.  The range of the integer is checked when the value is
    assigned. *)
Definition ConvertScalarFieldValue (f : FieldDescriptor) (v : jvalue)
  : result value :=
  match field_cpp_type f, v with
  | CPPTYPE_STRING, JStr s =>
      if List.existsb is_surrogate s then Raise ParseError else Ok (VStr s)
  | CPPTYPE_INT32, JInt z => Ok (VInt z)
  | CPPTYPE_INT64, JInt z => Ok (VInt z)
  | CPPTYPE_INT32, JStr s => integer_of_text s
  | CPPTYPE_INT64, JStr s => integer_of_text s
  | _, _ => Raise ParseError
  end.

(** The assignment inside [Parse]: a [ValueError] or [TypeError] of the
    runtime's check is reported as a [ParseError]. *)
Definition parse_set (message : Token) (f : FieldDescriptor) (v : value)
  : result Token :=
  match set_field message f v with
  | Ok m => Ok m
  | Raise _ => Raise ParseError
  end.

(** [_ConvertFieldValuePair]: every member sets the field its key names;
    [null] clears the field, putting its default back. *)
Fixpoint ConvertFieldValuePair (js : list (pystr * jvalue)) (message : Token)
  : result Token :=
  match js with
  | [] => Ok message
  | (key, v) :: r =>
      match field_of_key key with
      | None => Raise ParseError
      | Some f =>
          match v with
          | JNull =>
              match store message f (default_value f) with
              | Raise e => Raise e
              | Ok m => ConvertFieldValuePair r m
              end
          | _ =>
              match ConvertScalarFieldValue f v with
              | Raise e => Raise e
              | Ok x =>
                  match parse_set message f x with
                  | Raise e => Raise e
                  | Ok m => ConvertFieldValuePair r m
                  end
              end
          end
      end
  end.

Definition Parse (text : pystr) (message : Token) : result Token :=
  match loads text with
  | Some (JObj members) =>
      match DuplicateChecker members [] with
      | Raise e => Raise e
      | Ok js => ConvertFieldValuePair js message
      end
  | _ => Raise ParseError
  end.

End pb_json.

(** ** The script *)

(** The literal ['orð']: o, r, and U+00F0. *)
Definition name_literal : pystr := lit "or" ++ [0xF0].

(** [main] over an arbitrary formatter. *)
Definition main_over (to_json : processed_pb2.Token -> result pystr) : M unit :=
  token <- processed_pb2.Token_new ;;
  token <- processed_pb2.setattr token (lit "name") (VStr name_literal) ;;
  token <- processed_pb2.setattr token (lit "index") (VInt 1) ;;
  token <- processed_pb2.setattr token (lit "span_from") (VInt 1) ;;
  token <- processed_pb2.setattr token (lit "span_to") (VInt 4) ;;
  json_repr <- lift (to_json token) ;;
  print json_repr.

Definition main : M unit := main_over pb_json.MessageToJson.

(** The module body: the imports and the definition of [main] have no
    effect on the console; the guard runs [main] when the module's
    [__name__] is ['__main__']. *)
Definition module_body (dunder_name : pystr) : M unit :=
  if str_eqb dunder_name (lit "__main__") then main else ret tt.

(** [python main.py args...]: the file is run as the top-level script. *)
Definition run_script : M unit := module_body (lit "__main__").

(** [import main] from another module: [__name__] is the module's name. *)
Definition import_module : M unit := module_body (lit "main").

(** A message as [Token()] returns it. *)
Definition empty_token : processed_pb2.Token :=
  processed_pb2.mkToken [] 0 0 0.

(** A fresh process: nothing written yet. *)
Definition fresh (args : list pystr) (enc : codec) : world :=
  {| argv := args; stdout_encoding := enc; stdout := []; printed := [] |}.

(** ** Vocabulary of the statements *)

(** A literal in which an apostrophe stands for the double quote. *)
Definition qlit (s : string) : pystr :=
  List.map (fun c => if c =? 39 then QUOTE else c) (lit s).

(** The token [main] hands to the formatter. *)
Definition populated_token : processed_pb2.Token :=
  processed_pb2.mkToken name_literal 1 1 4.

(** Every field of the message differs from its default. *)
Definition populated (t : processed_pb2.Token) : Prop :=
  processed_pb2.name t <> [] /\ processed_pb2.index t <> 0%Z
  /\ processed_pb2.span_from t <> 0%Z /\ processed_pb2.span_to t <> 0%Z.

(** The JSON object of a message: each field's value under the field's
    JSON name. *)
Definition token_object (t : processed_pb2.Token) : jvalue :=
  JObj [(qlit "name", JStr (processed_pb2.name t));
        (qlit "index", JInt (processed_pb2.index t));
        (qlit "spanFrom", JInt (processed_pb2.span_from t));
        (qlit "spanTo", JInt (processed_pb2.span_to t))].

(** The layout [json.dumps] gives that object with [indent=2] and
    [ensure_ascii=True]. *)
Definition token_layout (t : processed_pb2.Token) : pystr :=
  qlit "{" ++ [NEWLINE]
  ++ qlit "  'name': " ++ py_encode_basestring_ascii (processed_pb2.name t)
  ++ qlit "," ++ [NEWLINE]
  ++ qlit "  'index': " ++ str_of_int (processed_pb2.index t)
  ++ qlit "," ++ [NEWLINE]
  ++ qlit "  'spanFrom': " ++ str_of_int (processed_pb2.span_from t)
  ++ qlit "," ++ [NEWLINE]
  ++ qlit "  'spanTo': " ++ str_of_int (processed_pb2.span_to t) ++ [NEWLINE]
  ++ qlit "}".

Fixpoint join_lines (ls : list pystr) : pystr :=
  match ls with
  | [] => []
  | [l] => l
  | l :: r => l ++ NEWLINE :: join_lines r
  end.

(** The text [main] prints. *)
Definition program_text : pystr :=
  join_lines [qlit "{";
              qlit "  'name': 'or\u00f0',";
              qlit "  'index': 1,";
              qlit "  'spanFrom': 1,";
              qlit "  'spanTo': 4";
              qlit "}"].

Definition line_count (out : list N) : nat :=
  List.count_occ N.eq_dec out NEWLINE.

(** One line: a single newline, at the end. *)
Definition single_line (out : list N) : Prop :=
  line_count out = 1%nat /\ List.last out 0 = NEWLINE.

Definition is_ascii (out : list N) : Prop :=
  List.Forall (fun c => c < 0x80) out.

(** A Unicode scalar value: a code point that is not a surrogate. *)
Definition scalar_value (c : codepoint) : bool :=
  (c <? 0x110000) && negb (is_surrogate c).

(** Text made of scalar values, as a text field of a message holds. *)
Definition well_formed (s : pystr) : Prop :=
  List.Forall (fun c => scalar_value c = true) s.

(** What may follow the digits of an integer in a text: not a digit, and
    not the start of a fraction or an exponent. *)
Definition ends_number (rest : pystr) : Prop :=
  match rest with
  | c :: _ => is_digit c = false /\ starts_float_tail rest = false
  | [] => True
  end.

(** The digits of a decimal numeral as characters, and their value read
    from the left onto an accumulator. *)
Fixpoint uint_chars (d : Decimal.uint) : pystr :=
  match d with
  | Decimal.Nil => []
  | Decimal.D0 l => 48 :: uint_chars l
  | Decimal.D1 l => 49 :: uint_chars l
  | Decimal.D2 l => 50 :: uint_chars l
  | Decimal.D3 l => 51 :: uint_chars l
  | Decimal.D4 l => 52 :: uint_chars l
  | Decimal.D5 l => 53 :: uint_chars l
  | Decimal.D6 l => 54 :: uint_chars l
  | Decimal.D7 l => 55 :: uint_chars l
  | Decimal.D8 l => 56 :: uint_chars l
  | Decimal.D9 l => 57 :: uint_chars l
  end.

Fixpoint uint_value (acc : N) (d : Decimal.uint) : N :=
  match d with
  | Decimal.Nil => acc
  | Decimal.D0 l => uint_value (10 * acc + 0) l
  | Decimal.D1 l => uint_value (10 * acc + 1) l
  | Decimal.D2 l => uint_value (10 * acc + 2) l
  | Decimal.D3 l => uint_value (10 * acc + 3) l
  | Decimal.D4 l => uint_value (10 * acc + 4) l
  | Decimal.D5 l => uint_value (10 * acc + 5) l
  | Decimal.D6 l => uint_value (10 * acc + 6) l
  | Decimal.D7 l => uint_value (10 * acc + 7) l
  | Decimal.D8 l => uint_value (10 * acc + 8) l
  | Decimal.D9 l => uint_value (10 * acc + 9) l
  end.

(** A JSON value the formatter produces for a field: text or an integer. *)
Definition scalar_json (v : jvalue) : Prop :=
  match v with
  | JInt _ => True
  | JStr s => well_formed s
  | _ => False
  end.

(** An object whose keys are text and whose members are such values. *)
Definition flat_members (kvs : list (pystr * jvalue)) : Prop :=
  List.Forall (fun kv => well_formed (fst kv) /\ scalar_json (snd kv)) kvs.

(** The text of the members of an object after the first one. *)
Fixpoint more_members (ensure_ascii : bool) (indent : option nat) (level : nat)
    (l : list (pystr * jvalue)) : pystr :=
  match l with
  | [] => []
  | (k, v) :: l' =>
      between indent level ++ encoder ensure_ascii k ++ key_separator
      ++ iterencode ensure_ascii indent (S level) v
      ++ more_members ensure_ascii indent level l'
  end.

(** The members the formatter writes for a message: the set fields, each
    under its JSON name. *)
Definition json_of_value (v : value) : jvalue :=
  match v with
  | VInt z => JInt z
  | VStr s => JStr s
  end.

Definition members_of (t : processed_pb2.Token) : list (pystr * jvalue) :=
  List.map (fun fv => (processed_pb2.json_name (fst fv), json_of_value (snd fv)))
    (processed_pb2.ListFields t).

(** An integer a 32-bit signed field can hold. *)
Definition in_int32 (z : Z) : Prop := (- 2 ^ 31 <= z < 2 ^ 31)%Z.

(** A token the runtime lets exist: its text is well formed and its
    integers fit their fields. *)
Definition valid_token (t : processed_pb2.Token) : Prop :=
  well_formed (processed_pb2.name t)
  /\ in_int32 (processed_pb2.index t)
  /\ in_int32 (processed_pb2.span_from t)
  /\ in_int32 (processed_pb2.span_to t).

(** A printable ASCII character. *)
Definition printable (c : codepoint) : Prop := 32 <= c /\ c <= 126.

(** A value the writer puts on one line: a number or a string. *)
Definition written_scalar (v : jvalue) : Prop :=
  match v with
  | JInt _ | JStr _ => True
  | _ => False
  end.

(** The world after [s] and a newline were printed once. *)
Definition after_print (w : world) (s : pystr) : world :=
  {| argv := argv w;
     stdout_encoding := stdout_encoding w;
     stdout := stdout w ++ s ++ [NEWLINE];
     printed := printed w ++ [s] |}.

(** ** The script, run *)

Lemma encode_ascii (enc : codec) (s : pystr) :
  is_ascii s -> encode enc s = Ok s.
Proof.
  induction 1 as [|c r Hc _ IH]; simpl; [reflexivity|].
  assert (Hchar : encode_char enc c = Ok [c]).
  { apply N.ltb_lt in Hc.
    destruct enc; unfold encode_char, utf8_char; try (rewrite Hc; reflexivity).
    replace (c <? 0x100) with true; [reflexivity|].
    symmetry; apply N.ltb_lt. apply N.ltb_lt in Hc. lia. }
  rewrite Hchar, IH. reflexivity.
Qed.

Lemma program_text_ascii : is_ascii (program_text ++ [NEWLINE]).
Proof.
  unfold is_ascii. apply Forall_forall. intros c Hc.
  vm_compute in Hc.
  repeat (destruct Hc as [<-|Hc]; [reflexivity|]); destruct Hc.
Qed.

Lemma populated_token_json :
  pb_json.MessageToJson populated_token = Ok program_text.
Proof. vm_compute. reflexivity. Qed.

(** The same token with [indent=None] and the field names preserved: one
    line, the keys as in the message. *)
Example populated_token_json_compact :
  pb_json.MessageToJson_kw populated_token false true None true
  = Ok (qlit "{'name': 'or\u00f0', 'index': 1, 'span_from': 1, 'span_to': 4}").
Proof. vm_compute. reflexivity. Qed.

Lemma print_ascii (s : pystr) (w : world) :
  is_ascii (s ++ [NEWLINE]) -> print s w = Ok (tt, after_print w s).
Proof.
  intros H. unfold print. rewrite (encode_ascii _ _ H). reflexivity.
Qed.

(** [main] over any formatter: the four assignments succeed and build
    [populated_token]; the formatter is called on it and its result
    printed. *)
Lemma main_over_unfold (to_json : processed_pb2.Token -> result pystr) (w : world) :
  main_over to_json w = bind (lift (to_json populated_token)) print w.
Proof. reflexivity. Qed.

Lemma main_runs (w : world) : main w = Ok (tt, after_print w program_text).
Proof.
  unfold main. rewrite main_over_unfold. unfold bind, lift.
  rewrite populated_token_json.
  apply print_ascii, program_text_ascii.
Qed.

Lemma run_script_runs (w : world) :
  run_script w = Ok (tt, after_print w program_text).
Proof. apply main_runs. Qed.

Lemma program_text_loads :
  loads (program_text ++ [NEWLINE]) = Some (token_object populated_token).
Proof. vm_compute. reflexivity. Qed.

Lemma str_eqb_eq (a b : pystr) : str_eqb a b = true <-> a = b.
Proof.
  unfold str_eqb. destruct (list_eq_dec N.eq_dec a b) as [E|E]; split; intros H;
    congruence.
Qed.

Lemma str_eqb_neq (a b : pystr) : a <> b -> str_eqb a b = false.
Proof.
  intros H. destruct (str_eqb a b) eqn:E; [|reflexivity].
  apply str_eqb_eq in E. contradiction.
Qed.

Lemma ListFields_populated (t : processed_pb2.Token) :
  populated t ->
  processed_pb2.ListFields t
  = List.map (fun f => (f, processed_pb2.getattr t f)) processed_pb2.fields.
Proof.
  intros (Hn & Hi & Hf & Ht).
  unfold processed_pb2.ListFields. simpl.
  rewrite (str_eqb_neq _ _ Hn).
  apply Z.eqb_neq in Hi, Hf, Ht. rewrite Hi, Hf, Ht. reflexivity.
Qed.

Lemma dumps_token_object (t : processed_pb2.Token) :
  dumps (token_object t) (Some 2%nat) true = token_layout t.
Proof.
  unfold dumps, token_object, token_layout. simpl.
  unfold encoder, key_separator, between, item_separator, after_open,
    before_close, newline_indent. simpl.
  repeat (rewrite <- ?app_assoc; simpl). reflexivity.
Qed.

Lemma MessageToJsonObject_populated (t : processed_pb2.Token) :
  populated t ->
  pb_json.MessageToJsonObject (pb_json.mkPrinter false false) t
  = Ok (token_object t).
Proof.
  intros H. unfold pb_json.MessageToJsonObject, pb_json.RegularMessageToJsonObject.
  rewrite (ListFields_populated t H). reflexivity.
Qed.

Lemma populated_token_populated : populated populated_token.
Proof. repeat split; discriminate. Qed.

(** ** Reading back what the writer wrote: integers *)

Lemma lit_string_of_uint (d : Decimal.uint) :
  lit (NilEmpty.string_of_uint d) = uint_chars d.
Proof.
  induction d; simpl; unfold lit in *; simpl; try rewrite IHd; reflexivity.
Qed.

Lemma scan_digits_uint (d : Decimal.uint) (acc : N) (rest : pystr) :
  ends_number rest ->
  scan_digits acc (uint_chars d ++ rest) = (uint_value acc d, rest).
Proof.
  intros Hrest. revert acc.
  induction d; intros acc; simpl; try (rewrite IHd; reflexivity).
  destruct rest as [|c r]; simpl; [reflexivity|].
  destruct Hrest as [Hd _]. rewrite Hd. reflexivity.
Qed.

Lemma uint_value_acc (d : Decimal.uint) (acc : positive) :
  uint_value (Npos acc) d = Npos (Pos.of_uint_acc d acc).
Proof.
  revert acc. induction d; intros acc; cbn [uint_value Pos.of_uint_acc];
    try reflexivity;
    (etransitivity; [|apply IHd]); f_equal; lia.
Qed.

Lemma uint_value_of_uint (d : Decimal.uint) : uint_value 0 d = Pos.of_uint d.
Proof.
  induction d; cbn [uint_value Pos.of_uint]; try assumption; try reflexivity;
    apply (uint_value_acc d).
Qed.

(** A numeral printed for a positive number does not start with [0]. *)
Lemma to_uint_head (p : positive) :
  forall l, Pos.to_uint p <> Decimal.D0 l /\ Pos.to_uint p <> Decimal.Nil.
Proof.
  intros l. split; [|apply DecimalPos.Unsigned.to_uint_nonnil].
  intros E.
  pose proof (DecimalPos.Unsigned.to_of (Pos.to_uint p)) as H.
  rewrite DecimalPos.Unsigned.of_to in H. simpl in H.
  rewrite E in H at 1.
  unfold Decimal.unorm in H.
  destruct (Decimal.nzhead (Pos.to_uint p)) eqn:Hz; try discriminate H.
  - injection H as ->. exact (DecimalPos.Unsigned.to_uint_nonzero p E).
  - exact (DecimalFacts.nzhead_nonzero _ _ Hz).
Qed.

Lemma scan_natural_to_uint (p : positive) (rest : pystr) :
  ends_number rest ->
  scan_natural (uint_chars (Pos.to_uint p) ++ rest) = Some (Npos p, rest).
Proof.
  intros Hrest.
  assert (Hfloat : starts_float_tail rest = false).
  { destruct rest; [reflexivity | apply Hrest]. }
  pose proof (DecimalPos.Unsigned.of_to p) as Hval.
  rewrite <- uint_value_of_uint in Hval.
  destruct (Pos.to_uint p) as [|l|l|l|l|l|l|l|l|l|l] eqn:E.
  1: { destruct (to_uint_head p Decimal.Nil) as [_ H]. contradiction. }
  1: { destruct (to_uint_head p l) as [H _]. contradiction. }
  all: rewrite <- Hval; cbn [uint_chars app scan_natural uint_value];
    match goal with
    | |- context [scan_digits ?a _] =>
        change (scan_digits a) with (scan_digits a);
        rewrite (scan_digits_uint l a rest Hrest)
    end;
    rewrite Hfloat; reflexivity.
Qed.

Lemma scan_number_str_of_int (z : Z) (rest : pystr) :
  ends_number rest ->
  scan_number (str_of_int z ++ rest) = Some (z, rest).
Proof.
  intros Hrest.
  assert (Hfloat : starts_float_tail rest = false).
  { destruct rest; [reflexivity | apply Hrest]. }
  assert (Hpos : forall p,
             lit (NilZero.string_of_uint (Pos.to_uint p)) = uint_chars (Pos.to_uint p)).
  { intros p. unfold NilZero.string_of_uint.
    destruct (Pos.to_uint p) eqn:E; try (rewrite <- lit_string_of_uint; reflexivity).
    destruct (to_uint_head p Decimal.Nil) as [_ H]. contradiction. }
  destruct z as [|p|p]; unfold str_of_int; cbn [Z.to_int NilZero.string_of_int].
  - cbn. rewrite Hfloat. reflexivity.
  - rewrite Hpos. unfold scan_number.
    pose proof (scan_natural_to_uint p rest Hrest) as H.
    destruct (uint_chars (Pos.to_uint p) ++ rest) as [|c r] eqn:E; [discriminate H|].
    destruct (c =? 45) eqn:Hc.
    + apply N.eqb_eq in Hc. subst c. discriminate H.
    + rewrite H. reflexivity.
  - change (lit (String "-" (NilZero.string_of_uint (Pos.to_uint p))))
      with (45 :: lit (NilZero.string_of_uint (Pos.to_uint p))).
    rewrite Hpos. cbn [app scan_number]. change (45 =? 45) with true. cbv iota.
    rewrite (scan_natural_to_uint p rest Hrest). reflexivity.
Qed.

(** ** Reading back what the writer wrote: text *)

Lemma hex_value_digit (d : N) : d < 16 -> hex_value (hex_digit d) = Some d.
Proof.
  intros H. unfold hex_value, hex_digit.
  destruct (N.ltb_spec d 10) as [Hd|Hd].
  - replace ((48 <=? 48 + d) && (48 + d <=? 57)) with true.
    + f_equal. lia.
    + symmetry. apply andb_true_iff. split; apply N.leb_le; lia.
  - replace ((48 <=? 87 + d) && (87 + d <=? 57)) with false.
    + replace ((97 <=? 87 + d) && (87 + d <=? 102)) with true.
      * f_equal. lia.
      * symmetry. apply andb_true_iff. split; apply N.leb_le; lia.
    + symmetry. apply andb_false_iff. right. apply N.leb_gt. lia.
Qed.

Lemma decode_hex4 (n : N) :
  n < 0x10000 ->
  decode_uXXXX (hex_digit (n / 4096 mod 16)) (hex_digit (n / 256 mod 16))
               (hex_digit (n / 16 mod 16)) (hex_digit (n mod 16)) = Some n.
Proof.
  intros H. unfold decode_uXXXX.
  rewrite !hex_value_digit by (apply N.mod_lt; discriminate).
  f_equal.
  zify. Z.to_euclidean_division_equations. lia.
Qed.

Lemma lor_low (a y : N) : y < 1024 -> N.lor (a * 1024) y = a * 1024 + y.
Proof.
  intros Hy.
  assert (Hland : N.land (a * 1024) y = 0).
  { apply N.bits_inj_0. intros i. rewrite N.land_spec.
    change 1024 with (2 ^ 10).
    destruct (N.lt_ge_cases i 10) as [Hi|Hi].
    - rewrite N.mul_pow2_bits_low by assumption. reflexivity.
    - replace (N.testbit y i) with false; [apply andb_false_r|].
      symmetry. destruct (N.eq_dec y 0) as [->|Hy0]; [apply N.bits_0|].
      apply N.bits_above_log2.
      apply N.lt_le_trans with 10; [|assumption].
      apply N.log2_lt_pow2; [lia | exact Hy]. }
  rewrite <- N.lxor_lor by assumption.
  symmetry. apply N.add_nocarry_lxor. assumption.
Qed.

Lemma surrogate_high (n : N) :
  n < 0x100000 ->
  N.lor 0xd800 (N.land (N.shiftr n 10) 0x3ff) = 0xd800 + n / 1024.
Proof.
  intros H. rewrite N.shiftr_div_pow2. change 0x3ff with (N.ones 10).
  rewrite N.land_ones. change (2 ^ 10) with 1024.
  rewrite (N.mod_small (n / 1024) 1024)
    by (apply N.Div0.div_lt_upper_bound; lia).
  change 0xd800 with (54 * 1024) at 1.
  rewrite lor_low by (apply N.Div0.div_lt_upper_bound; lia). reflexivity.
Qed.

Lemma surrogate_low (n : N) :
  N.lor 0xdc00 (N.land n 0x3ff) = 0xdc00 + n mod 1024.
Proof.
  change 0x3ff with (N.ones 10). rewrite N.land_ones. change (2 ^ 10) with 1024.
  change 0xdc00 with (55 * 1024) at 1.
  rewrite lor_low by (apply N.mod_lt; discriminate). reflexivity.
Qed.

Lemma surrogate_join (n : N) :
  0x10000 + N.lor (N.shiftl (0xd800 + n / 1024 - 0xd800) 10)
                  (0xdc00 + n mod 1024 - 0xdc00) = 0x10000 + n.
Proof.
  rewrite (N.add_comm 0xd800), (N.add_comm 0xdc00), !N.add_sub.
  rewrite N.shiftl_mul_pow2. change (2 ^ 10) with 1024.
  rewrite lor_low by (apply N.mod_lt; discriminate).
  f_equal. zify. Z.to_euclidean_division_equations. lia.
Qed.

Lemma scanstring_plain (c : codepoint) (r : pystr) :
  c <> QUOTE -> c <> BACKSLASH -> 0x20 <= c ->
  scanstring (c :: r) = push c (scanstring r).
Proof.
  intros Hq Hb Hc. cbn [scanstring].
  apply N.eqb_neq in Hq, Hb. rewrite Hq, Hb.
  replace (c <? 0x20) with false; [reflexivity|].
  symmetry. apply N.ltb_ge. exact Hc.
Qed.

Lemma scanstring_u_escape (n : N) (rest : pystr) :
  n < 0x10000 -> is_high_surrogate n = false ->
  scanstring (u_escape n ++ rest) = push n (scanstring rest).
Proof.
  intros Hn Hs. unfold u_escape, hex4. cbn [app scanstring].
  change (BACKSLASH =? QUOTE) with false. change (BACKSLASH =? BACKSLASH) with true.
  change (117 =? 117) with true. cbv iota.
  rewrite (decode_hex4 n Hn), Hs. reflexivity.
Qed.

Lemma scanstring_pair (c : codepoint) (rest : pystr) :
  0x10000 <= c -> c < 0x110000 ->
  scanstring
    (u_escape (N.lor 0xd800 (N.land (N.shiftr (c - 0x10000) 10) 0x3ff))
     ++ u_escape (N.lor 0xdc00 (N.land (c - 0x10000) 0x3ff)) ++ rest)
  = push c (scanstring rest).
Proof.
  intros Hlo Hhi.
  set (n := c - 0x10000).
  assert (Hn : n < 0x100000) by (unfold n; lia).
  rewrite (surrogate_high n Hn), surrogate_low.
  assert (Hq : n / 1024 < 1024) by (apply N.Div0.div_lt_upper_bound; lia).
  assert (Hr : n mod 1024 < 1024) by (apply N.mod_lt; discriminate).
  pose proof (N.le_0_l (n / 1024)) as Hq0.
  pose proof (N.le_0_l (n mod 1024)) as Hr0.
  unfold u_escape, hex4. cbn [app scanstring].
  change (BACKSLASH =? QUOTE) with false. change (BACKSLASH =? BACKSLASH) with true.
  change (117 =? 117) with true. cbv iota.
  rewrite (decode_hex4 (0xd800 + n / 1024)) by lia.
  replace (is_high_surrogate (0xd800 + n / 1024)) with true
    by (symmetry; apply andb_true_iff; split; apply N.leb_le; lia).
  change ((BACKSLASH =? BACKSLASH) && (117 =? 117)) with true. cbv iota.
  rewrite (decode_hex4 (0xdc00 + n mod 1024)) by lia.
  replace (is_low_surrogate (0xdc00 + n mod 1024)) with true
    by (symmetry; apply andb_true_iff; split; apply N.leb_le; lia).
  rewrite surrogate_join. replace (0x10000 + n) with c by (unfold n; lia).
  reflexivity.
Qed.

Lemma scalar_not_high (c : codepoint) :
  scalar_value c = true -> is_high_surrogate c = false.
Proof.
  unfold scalar_value, is_surrogate, is_high_surrogate. intros H.
  apply andb_true_iff in H. destruct H as [_ H]. apply negb_true_iff in H.
  apply andb_false_iff in H. apply andb_false_iff.
  destruct H as [H|H]; [left; exact H|right].
  apply N.leb_gt in H. apply N.leb_gt. lia.
Qed.

Lemma scanstring_escape_char (c : codepoint) (rest : pystr) :
  scalar_value c = true ->
  scanstring ((if matches_ESCAPE_ASCII c then replace_ascii c else [c]) ++ rest)
  = push c (scanstring rest).
Proof.
  intros Hc. unfold matches_ESCAPE_ASCII.
  destruct (N.eqb_spec c BACKSLASH) as [->|Hb]; [reflexivity|].
  destruct (N.eqb_spec c QUOTE) as [->|Hq]; [reflexivity|].
  cbn [orb].
  destruct (N.leb_spec SPACE c) as [Hlo|Hlo]; cbn [andb negb].
  - destruct (N.leb_spec c 126) as [Hhi|Hhi]; cbn [negb].
    + apply scanstring_plain; assumption.
    + unfold replace_ascii, ESCAPE_DCT.
      apply N.eqb_neq in Hb, Hq. rewrite Hb, Hq.
      replace (c =? 8) with false by (symmetry; apply N.eqb_neq; unfold SPACE in *; lia).
      replace (c =? 12) with false by (symmetry; apply N.eqb_neq; unfold SPACE in *; lia).
      replace (c =? 10) with false by (symmetry; apply N.eqb_neq; unfold SPACE in *; lia).
      replace (c =? 13) with false by (symmetry; apply N.eqb_neq; unfold SPACE in *; lia).
      replace (c =? 9) with false by (symmetry; apply N.eqb_neq; unfold SPACE in *; lia).
      replace (c <? 0x20) with false by (symmetry; apply N.ltb_ge; exact Hlo).
      destruct (N.ltb_spec c 0x10000) as [Hs|Hs].
      * apply scanstring_u_escape; [exact Hs | apply scalar_not_high, Hc].
      * rewrite <- app_assoc. apply scanstring_pair; [exact Hs|].
        unfold scalar_value in Hc. apply andb_true_iff in Hc.
        apply N.ltb_lt. apply Hc.
  - unfold replace_ascii, ESCAPE_DCT.
    apply N.eqb_neq in Hb, Hq. rewrite Hb, Hq.
    destruct (N.eqb_spec c 8) as [->|H8]; [reflexivity|].
    destruct (N.eqb_spec c 12) as [->|H12]; [reflexivity|].
    destruct (N.eqb_spec c 10) as [->|H10]; [reflexivity|].
    destruct (N.eqb_spec c 13) as [->|H13]; [reflexivity|].
    destruct (N.eqb_spec c 9) as [->|H9]; [reflexivity|].
    replace (c <? 0x20) with true by (symmetry; apply N.ltb_lt; exact Hlo).
    apply scanstring_u_escape; [unfold SPACE in Hlo; lia|].
    apply andb_false_iff. left. apply N.leb_gt. unfold SPACE in Hlo. lia.
Qed.

Lemma scanstring_escaped (s rest : pystr) :
  well_formed s ->
  scanstring
    (List.flat_map
       (fun c => if matches_ESCAPE_ASCII c then replace_ascii c else [c]) s
     ++ QUOTE :: rest)
  = Some (s, rest).
Proof.
  induction 1 as [|c r Hc _ IH]; [reflexivity|].
  cbn [List.flat_map]. rewrite <- app_assoc.
  rewrite (scanstring_escape_char c _ Hc), IH. reflexivity.
Qed.

(** ** Reading back what the writer wrote: objects *)

Lemma iterencode_object ensure_ascii indent level k v kvs :
  iterencode ensure_ascii indent level (JObj ((k, v) :: kvs))
  = lit "{" ++ after_open indent level
    ++ encoder ensure_ascii k ++ key_separator
    ++ iterencode ensure_ascii indent (S level) v
    ++ more_members ensure_ascii indent level kvs
    ++ before_close indent level ++ lit "}".
Proof.
  cbn [iterencode]. do 6 f_equal.
  induction kvs as [|[k' v'] l IH]; [reflexivity|].
  cbn [more_members]. rewrite <- IH. reflexivity.
Qed.

Lemma skip_ws_spaces (n : nat) (s : pystr) :
  skip_ws (List.repeat SPACE n ++ s) = skip_ws s.
Proof. induction n; [reflexivity | exact IHn]. Qed.

Lemma skip_ws_after_open indent level (s : pystr) :
  skip_ws (after_open indent level ++ s) = skip_ws s.
Proof.
  unfold after_open, newline_indent. destruct indent; [|reflexivity].
  cbn [app skip_ws]. change (is_whitespace NEWLINE) with true. cbv iota.
  apply skip_ws_spaces.
Qed.

Lemma skip_ws_before_close indent level (s : pystr) :
  skip_ws (before_close indent level ++ s) = skip_ws s.
Proof.
  unfold before_close, newline_indent. destruct indent; [|reflexivity].
  cbn [app skip_ws]. change (is_whitespace NEWLINE) with true. cbv iota.
  apply skip_ws_spaces.
Qed.

Lemma encoder_app (s rest : pystr) :
  encoder true s ++ rest
  = QUOTE :: List.flat_map
               (fun c => if matches_ESCAPE_ASCII c then replace_ascii c else [c]) s
          ++ QUOTE :: rest.
Proof.
  unfold encoder, py_encode_basestring_ascii. cbn [app].
  rewrite <- app_assoc. reflexivity.
Qed.

(** The head of the text of a scalar value is not white space. *)
Lemma str_of_int_head (z : Z) :
  exists c r, str_of_int z = c :: r /\ ((c = 45) \/ is_digit c = true).
Proof.
  pose proof (scan_number_str_of_int z [] I) as H.
  rewrite app_nil_r in H.
  destruct (str_of_int z) as [|c r]; [discriminate H|].
  exists c, r. split; [reflexivity|].
  unfold scan_number in H.
  destruct (N.eqb_spec c 45) as [->|Hc]; [left; reflexivity|right].
  unfold scan_natural in H.
  destruct (N.eqb_spec c 48) as [->|H0]; [reflexivity|].
  destruct (is_digit c); [reflexivity | discriminate H].
Qed.

Lemma scan_value_number (fuel : nat) (s rest : pystr) (z : Z) :
  scan_number s = Some (z, rest) ->
  scan_value (S fuel) s = Some (JInt z, rest).
Proof.
  intros H.
  assert (Hhead : exists c r, s = c :: r /\ ((c = 45) \/ is_digit c = true)).
  { destruct s as [|c r]; [discriminate H|].
    exists c, r. split; [reflexivity|].
    unfold scan_number in H.
    destruct (N.eqb_spec c 45) as [->|Hc]; [left; reflexivity|right].
    unfold scan_natural in H.
    destruct (N.eqb_spec c 48) as [->|H0]; [reflexivity|].
    destruct (is_digit c); [reflexivity | discriminate H]. }
  destruct Hhead as (c & r & -> & Hc).
  assert (Hrange : c = 45 \/ (48 <= c /\ c <= 57)).
  { destruct Hc as [Hc|Hc]; [left; exact Hc|right].
    unfold is_digit in Hc. apply andb_true_iff in Hc.
    destruct Hc as [H1 H2]. apply N.leb_le in H1, H2. split; assumption. }
  cbn [scan_value].
  replace (c =? QUOTE) with false
    by (symmetry; apply N.eqb_neq; unfold QUOTE; lia).
  replace (c =? 123) with false by (symmetry; apply N.eqb_neq; lia).
  replace (c =? 91) with false by (symmetry; apply N.eqb_neq; lia).
  unfold scan_literal.
  change (lit "null") with (110 :: lit "ull").
  change (lit "true") with (116 :: lit "rue").
  change (lit "false") with (102 :: lit "alse").
  cbn [strip_prefix].
  replace (110 =? c) with false by (symmetry; apply N.eqb_neq; lia).
  replace (116 =? c) with false by (symmetry; apply N.eqb_neq; lia).
  replace (102 =? c) with false by (symmetry; apply N.eqb_neq; lia).
  rewrite H. reflexivity.
Qed.

Lemma scan_value_scalar (fuel : nat) indent level (v : jvalue) (rest : pystr) :
  scalar_json v -> ends_number rest ->
  scan_value (S fuel) (iterencode true indent level v ++ rest) = Some (v, rest).
Proof.
  intros Hv Hrest. destruct v as [| |z|s| |]; try contradiction.
  - apply scan_value_number, scan_number_str_of_int, Hrest.
  - cbn [iterencode]. rewrite encoder_app. cbn [scan_value].
    change (QUOTE =? QUOTE) with true. cbv iota.
    rewrite (scanstring_escaped s rest Hv). reflexivity.
Qed.

Lemma skip_ws_scalar indent level (v : jvalue) (rest : pystr) :
  scalar_json v ->
  skip_ws (iterencode true indent level v ++ rest)
  = iterencode true indent level v ++ rest.
Proof.
  intros Hv. destruct v as [| |z|s| |]; try contradiction.
  - cbn [iterencode]. destruct (str_of_int_head z) as (c & r & -> & Hc).
    cbn [app skip_ws].
    replace (is_whitespace c) with false; [reflexivity|].
    symmetry. destruct Hc as [->|Hc]; [reflexivity|].
    unfold is_digit in Hc. apply andb_true_iff in Hc.
    destruct Hc as [H1 H2]. apply N.leb_le in H1, H2.
    unfold is_whitespace.
    repeat (apply orb_false_iff; split); apply N.eqb_neq; lia.
  - cbn [iterencode]. rewrite encoder_app. reflexivity.
Qed.

Lemma ends_number_tail indent level (l : list (pystr * jvalue)) (rest : pystr) :
  ends_number (more_members true indent level l
               ++ before_close indent level ++ lit "}" ++ rest).
Proof.
  destruct l as [|[k v] l]; destruct indent; cbn; split; reflexivity.
Qed.

Lemma scan_members_last (fuel : nat) (r r1 r2 r3 r4 : pystr) key v :
  scanstring r = Some (key, r1) ->
  skip_ws r1 = 58 :: r2 ->
  scan_value fuel (skip_ws r2) = Some (v, r3) ->
  skip_ws r3 = 125 :: r4 ->
  scan_members (S fuel) (QUOTE :: r) = Some ([(key, v)], r4).
Proof.
  intros H1 H2 H3 H4. cbn [scan_members].
  change (QUOTE =? QUOTE) with true. cbv iota.
  rewrite H1, H2. change (58 =? 58) with true. cbv iota.
  rewrite H3, H4. reflexivity.
Qed.

Lemma scan_members_next (fuel : nat) (r r1 r2 r3 r4 r5 : pystr) key v kvs :
  scanstring r = Some (key, r1) ->
  skip_ws r1 = 58 :: r2 ->
  scan_value fuel (skip_ws r2) = Some (v, r3) ->
  skip_ws r3 = 44 :: r4 ->
  scan_members fuel (skip_ws r4) = Some (kvs, r5) ->
  scan_members (S fuel) (QUOTE :: r) = Some ((key, v) :: kvs, r5).
Proof.
  intros H1 H2 H3 H4 H5. cbn [scan_members].
  change (QUOTE =? QUOTE) with true. cbv iota.
  rewrite H1, H2. change (58 =? 58) with true. cbv iota.
  rewrite H3, H4. change (44 =? 125) with false. change (44 =? 44) with true.
  cbv iota. rewrite H5. reflexivity.
Qed.

Lemma skip_ws_encoder (k rest : pystr) :
  skip_ws (encoder true k ++ rest) = encoder true k ++ rest.
Proof. rewrite encoder_app. reflexivity. Qed.

Lemma between_app indent level (X : pystr) :
  exists r4,
    between indent level ++ X = 44 :: r4 /\ skip_ws r4 = skip_ws X.
Proof.
  unfold between. rewrite <- app_assoc. destruct indent as [n|].
  - exists (after_open (Some n) level ++ X). split; [reflexivity|].
    apply skip_ws_after_open.
  - exists (32 :: X). split; reflexivity.
Qed.

Lemma scan_members_text indent level (l : list (pystr * jvalue)) :
  forall (k : pystr) (v : jvalue) (fuel : nat) (rest : pystr),
    flat_members ((k, v) :: l) -> (List.length l + 2 <= fuel)%nat ->
    scan_members fuel
      (encoder true k ++ key_separator
       ++ iterencode true indent (S level) v
       ++ more_members true indent level l
       ++ before_close indent level ++ lit "}" ++ rest)
    = Some ((k, v) :: l, rest).
Proof.
  induction l as [|[k' v'] l IH]; intros k v fuel rest Hflat Hfuel;
    (destruct fuel as [|[|fuel]]; [cbn in Hfuel; lia | cbn in Hfuel; lia |]);
    inversion Hflat as [|? ? [Hk Hv] Hl]; subst;
    cbn [fst snd] in Hk, Hv;
    rewrite encoder_app; change key_separator with [58; 32]; cbn [app].
  - eapply scan_members_last.
    + apply scanstring_escaped, Hk.
    + reflexivity.
    + change (skip_ws (32 :: ?x)) with (skip_ws x).
      rewrite (skip_ws_scalar indent (S level) v _ Hv).
      apply (scan_value_scalar fuel indent (S level) v _ Hv).
      apply (ends_number_tail indent level [] rest).
    + cbn [more_members app]. rewrite skip_ws_before_close. reflexivity.
  - cbn [more_members]. rewrite <- !app_assoc.
    match goal with
    | |- context [between indent level ++ ?X] =>
        destruct (between_app indent level X) as (r4 & Hsep & Hr4)
    end.
    eapply scan_members_next.
    + apply scanstring_escaped, Hk.
    + reflexivity.
    + change (skip_ws (32 :: ?x)) with (skip_ws x).
      rewrite (skip_ws_scalar indent (S level) v _ Hv).
      apply (scan_value_scalar fuel indent (S level) v _ Hv).
      pose proof (ends_number_tail indent level ((k', v') :: l) rest) as He.
      cbn [more_members] in He. rewrite <- !app_assoc in He. exact He.
    + rewrite Hsep. reflexivity.
    + rewrite Hr4, skip_ws_encoder.
      apply (IH k' v' (S fuel) rest Hl). cbn in Hfuel. lia.
Qed.

Lemma more_members_length ensure_ascii indent level (l : list (pystr * jvalue)) :
  (List.length l <= List.length (more_members ensure_ascii indent level l))%nat.
Proof.
  induction l as [|[k v] l IH]; [apply Nat.le_refl|].
  cbn [more_members]. unfold between, item_separator.
  rewrite !length_app. destruct indent; cbn [List.length lit]; cbn; lia.
Qed.

(** What [dumps] writes for an object of text and integer members,
    [loads] reads back as that object. *)
Lemma loads_dumps_flat (kvs : list (pystr * jvalue)) (indent : option nat)
    (trailer : pystr) :
  flat_members kvs -> skip_ws trailer = [] ->
  loads (dumps (JObj kvs) indent true ++ trailer) = Some (JObj kvs).
Proof.
  intros Hflat Htrail. unfold loads, dumps.
  destruct kvs as [|[k v] l].
  - cbn. rewrite Htrail. reflexivity.
  - rewrite iterencode_object. change (lit "{") with [123]. cbn [app skip_ws].
    change (is_whitespace 123) with false. cbv iota.
    cbn [scan_value]. change (123 =? QUOTE) with false.
    change (123 =? 123) with true. cbv iota.
    rewrite <- !app_assoc. rewrite skip_ws_after_open, skip_ws_encoder.
    rewrite encoder_app at 1. cbn [app]. change (QUOTE =? 125) with false.
    cbv iota. rewrite <- encoder_app.
    rewrite (scan_members_text indent 0 l k v _ trailer Hflat).
    + rewrite Htrail. reflexivity.
    + cbn [List.length]. rewrite !length_app.
      pose proof (more_members_length true indent 0%nat l) as Hlen.
      change (List.length (lit "}")) with 1%nat. lia.
Qed.

(** ** The formatter on every message *)


(** ** Writing a message and reading it back *)

Lemma well_formed_no_surrogate (s : pystr) :
  well_formed s -> List.existsb is_surrogate s = false.
Proof.
  induction 1 as [|c r Hc _ IH]; [reflexivity|].
  cbn [List.existsb]. rewrite IH.
  unfold scalar_value in Hc. apply andb_true_iff in Hc.
  destruct Hc as [_ Hc]. apply negb_true_iff in Hc. rewrite Hc. reflexivity.
Qed.

Ltac split_on_defaults t :=
  destruct (str_eqb (processed_pb2.name t) []) eqn:En;
  destruct (processed_pb2.index t =? 0)%Z eqn:Ei;
  destruct (processed_pb2.span_from t =? 0)%Z eqn:Ef;
  destruct (processed_pb2.span_to t =? 0)%Z eqn:Es.

Lemma MessageToJsonObject_members (t : processed_pb2.Token) :
  pb_json.MessageToJsonObject (pb_json.mkPrinter false false) t
  = Ok (JObj (members_of t)).
Proof.
  unfold pb_json.MessageToJsonObject, pb_json.RegularMessageToJsonObject,
    members_of, processed_pb2.ListFields.
  cbn [List.map processed_pb2.fields List.filter fst snd
       processed_pb2.getattr processed_pb2.default_value
       processed_pb2.field_cpp_type value_eqb].
  split_on_defaults t; reflexivity.
Qed.

Lemma members_of_flat (t : processed_pb2.Token) :
  well_formed (processed_pb2.name t) -> flat_members (members_of t).
Proof.
  intros Hn.
  assert (Hkey : forall k, List.forallb scalar_value k = true -> well_formed k).
  { intros k H. apply Forall_forall. intros c Hc.
    rewrite forallb_forall in H. apply H, Hc. }
  unfold members_of, processed_pb2.ListFields.
  cbn [List.map processed_pb2.fields List.filter fst snd
       processed_pb2.getattr processed_pb2.default_value
       processed_pb2.field_cpp_type value_eqb].
  split_on_defaults t; cbn [negb List.map fst snd json_of_value];
    repeat constructor; cbn [fst snd scalar_json]; try exact Hn;
    apply Hkey; reflexivity.
Qed.

(** *** What the runtime's check lets through *)

Lemma int32_ok_iff (z : Z) : processed_pb2.int32_ok z = true <-> in_int32 z.
Proof.
  unfold processed_pb2.int32_ok, in_int32. rewrite andb_true_iff.
  rewrite !Z.leb_le. change (2 ^ 31)%Z with 2147483648%Z. lia.
Qed.

Lemma encode_utf8_iff (s : pystr) :
  (exists bytes, encode utf_8 s = Ok bytes) <-> well_formed s.
Proof.
  induction s as [|c r IH].
  - split; [constructor | exists []; reflexivity].
  - assert (Hchar : (exists bs, utf8_char c = Ok bs) <-> scalar_value c = true).
    { unfold utf8_char, scalar_value.
      destruct (N.ltb_spec c 0x80) as [H1|H1].
      - replace (c <? 0x110000) with true by (symmetry; apply N.ltb_lt; lia).
        replace (is_surrogate c) with false
          by (symmetry; apply andb_false_iff; left; apply N.leb_gt; lia).
        split; [reflexivity | eexists; reflexivity].
      - destruct (N.ltb_spec c 0x800) as [H2|H2].
        + replace (c <? 0x110000) with true by (symmetry; apply N.ltb_lt; lia).
          replace (is_surrogate c) with false
            by (symmetry; apply andb_false_iff; left; apply N.leb_gt; lia).
          split; [reflexivity | eexists; reflexivity].
        + destruct (is_surrogate c) eqn:Hs.
          * rewrite andb_false_r. split; [intros [bs H] | intros H]; discriminate H.
          * destruct (N.ltb_spec c 0x10000) as [H3|H3].
            -- replace (c <? 0x110000) with true by (symmetry; apply N.ltb_lt; lia).
               split; [reflexivity | eexists; reflexivity].
            -- destruct (c <? 0x110000);
                 split; try reflexivity; try (eexists; reflexivity);
                 [intros [bs H] | intros H]; discriminate H. }
    cbn [encode encode_char]. split.
    + intros [bytes H].
      destruct (utf8_char c) as [bs|e] eqn:Hc; [|discriminate H].
      destruct (encode utf_8 r) as [rest|e] eqn:Hr; [|discriminate H].
      constructor; [apply Hchar; eexists; reflexivity|].
      apply IH. eexists. reflexivity.
    + intros H. inversion H as [|? ? Hc Hr]; subst.
      apply Hchar in Hc. destruct Hc as [bs ->].
      apply IH in Hr. destruct Hr as [rest ->]. eexists. reflexivity.
Qed.

Lemma set_field_name (t : processed_pb2.Token) (n : pystr) :
  well_formed n ->
  processed_pb2.set_field t processed_pb2.f_name (VStr n)
  = Ok (processed_pb2.mkToken n (processed_pb2.index t)
          (processed_pb2.span_from t) (processed_pb2.span_to t)).
Proof.
  intros H. apply encode_utf8_iff in H. destruct H as [bytes H].
  unfold processed_pb2.set_field, processed_pb2.CheckValue.
  cbn [processed_pb2.field_cpp_type]. rewrite H. reflexivity.
Qed.

Lemma set_field_index (t : processed_pb2.Token) (z : Z) :
  in_int32 z ->
  processed_pb2.set_field t processed_pb2.f_index (VInt z)
  = Ok (processed_pb2.mkToken (processed_pb2.name t) z
          (processed_pb2.span_from t) (processed_pb2.span_to t)).
Proof.
  intros H. apply int32_ok_iff in H.
  unfold processed_pb2.set_field, processed_pb2.CheckValue.
  cbn [processed_pb2.field_cpp_type]. rewrite H. reflexivity.
Qed.

Lemma set_field_span_from (t : processed_pb2.Token) (z : Z) :
  in_int32 z ->
  processed_pb2.set_field t processed_pb2.f_span_from (VInt z)
  = Ok (processed_pb2.mkToken (processed_pb2.name t) (processed_pb2.index t)
          z (processed_pb2.span_to t)).
Proof.
  intros H. apply int32_ok_iff in H.
  unfold processed_pb2.set_field, processed_pb2.CheckValue.
  cbn [processed_pb2.field_cpp_type]. rewrite H. reflexivity.
Qed.

Lemma set_field_span_to (t : processed_pb2.Token) (z : Z) :
  in_int32 z ->
  processed_pb2.set_field t processed_pb2.f_span_to (VInt z)
  = Ok (processed_pb2.mkToken (processed_pb2.name t) (processed_pb2.index t)
          (processed_pb2.span_from t) z).
Proof.
  intros H. apply int32_ok_iff in H.
  unfold processed_pb2.set_field, processed_pb2.CheckValue.
  cbn [processed_pb2.field_cpp_type]. rewrite H. reflexivity.
Qed.


(** The members written for a valid token, read into a new message, give
    the token. *)
Ltac read_members Hn Hi Hf Hs :=
  repeat (cbn -[pb_json.parse_set];
          unfold pb_json.parse_set;
          rewrite ?(set_field_name _ _ Hn), ?(set_field_index _ _ Hi),
            ?(set_field_span_from _ _ Hf), ?(set_field_span_to _ _ Hs)).

Lemma ConvertFieldValuePair_members (t : processed_pb2.Token) :
  valid_token t ->
  pb_json.DuplicateChecker (members_of t) [] = Ok (members_of t)
  /\ pb_json.ConvertFieldValuePair (members_of t) empty_token = Ok t.
Proof.
  intros (Hn & Hi & Hf & Hs).
  pose proof (well_formed_no_surrogate _ Hn) as Hsur.
  unfold members_of, processed_pb2.ListFields.
  cbn [List.map processed_pb2.fields List.filter fst snd
       processed_pb2.getattr processed_pb2.default_value
       processed_pb2.field_cpp_type value_eqb].
  destruct t as [n i f s]. cbn [processed_pb2.name processed_pb2.index
    processed_pb2.span_from processed_pb2.span_to] in *.
  destruct (str_eqb n []) eqn:En; [apply str_eqb_eq in En; subst n|];
    (destruct (i =? 0)%Z eqn:Ei; [apply Z.eqb_eq in Ei; subst i|]);
    (destruct (f =? 0)%Z eqn:Ef; [apply Z.eqb_eq in Ef; subst f|]);
    (destruct (s =? 0)%Z eqn:Es; [apply Z.eqb_eq in Es; subst s|]);
    (split; [reflexivity|]);
    cbn [negb List.map fst snd json_of_value];
    cbv [pb_json.field_of_key pb_json.ConvertFieldValuePair
         pb_json.ConvertScalarFieldValue];
    cbn -[pb_json.parse_set]; rewrite ?Hsur;
    read_members Hn Hi Hf Hs; reflexivity.
Qed.

(** A message written by [MessageToJson] and read by [Parse] into a new
    message is the message again, whichever of its fields are set. *)
Lemma Parse_MessageToJson (t : processed_pb2.Token) :
  valid_token t ->
  exists text,
    pb_json.MessageToJson t = Ok text
    /\ loads text = Some (JObj (members_of t))
    /\ pb_json.Parse text empty_token = Ok t.
Proof.
  intros Hv. pose proof Hv as (Hn & _).
  exists (dumps (JObj (members_of t)) (Some 2%nat) true).
  assert (Hloads : loads (dumps (JObj (members_of t)) (Some 2%nat) true)
                   = Some (JObj (members_of t))).
  { rewrite <- (app_nil_r (dumps _ _ _)).
    apply loads_dumps_flat; [apply members_of_flat, Hn | reflexivity]. }
  split; [|split; [exact Hloads|]].
  - unfold pb_json.MessageToJson, pb_json.MessageToJson_kw.
    rewrite MessageToJsonObject_members. reflexivity.
  - unfold pb_json.Parse. rewrite Hloads.
    destruct (ConvertFieldValuePair_members t Hv) as [-> ->]. reflexivity.
Qed.

(** ** The claims *)

(** C1: with the literals of the source, [main] prints the text of one
    JSON object that holds the four assigned values, each under the JSON
    name of its field, and nothing else; this in every world the script
    can start in. *)
Theorem main_prints_the_four_values (w : world) :
  exists text,
    main w = Ok (tt, after_print w text)
    /\ is_ascii (text ++ [NEWLINE])
    /\ loads (text ++ [NEWLINE])
       = Some (JObj [(processed_pb2.json_name processed_pb2.f_name, JStr name_literal);
                     (processed_pb2.json_name processed_pb2.f_index, JInt 1);
                     (processed_pb2.json_name processed_pb2.f_span_from, JInt 1);
                     (processed_pb2.json_name processed_pb2.f_span_to, JInt 4)]).
Proof.
  exists program_text. split; [apply main_runs|].
  split; [apply program_text_ascii|].
  rewrite program_text_loads. reflexivity.
Qed.

(** C2, as stated, fails: the output of the script is not a single line.
    [MessageToJson] is called with [indent] at its default, 2, so the
    object is laid out with one member per line. *)
Lemma run_script_output_not_single_line :
  exists w',
    run_script (fresh [] utf_8) = Ok (tt, w') /\ ~ single_line (stdout w').
Proof.
  eexists. split; [apply run_script_runs|].
  intros [H _]. vm_compute in H. discriminate H.
Qed.

(** C2, amended: run with any arguments and any console encoding, the
    script prints once, the text of exactly one JSON object laid out over
    six lines (the braces and one member per line, indented by two
    spaces), and the interpreter exits with status 0. *)
Theorem run_script_prints_one_object (args : list pystr) (enc : codec) :
  exists w',
    run_script (fresh args enc) = Ok (tt, w')
    /\ exit_status (run_script (fresh args enc)) = 0%Z
    /\ printed w' = [program_text]
    /\ stdout w' = program_text ++ [NEWLINE]
    /\ line_count (stdout w') = 6%nat
    /\ List.last (stdout w') 0 = NEWLINE
    /\ exists members, loads (stdout w') = Some (JObj members).
Proof.
  eexists. rewrite run_script_runs. split; [reflexivity|].
  repeat split; try reflexivity.
  eexists. cbn [stdout after_print fresh app]. apply program_text_loads.
Qed.

(** C3, as stated, fails, in two ways.  The keys of the object written
    for the token of [main] are not the field names: [span_from] and
    [span_to] appear under their JSON names [spanFrom] and [spanTo].
    And a token populated with [name='a'], [index=0], [span_from=0],
    [span_to=3] is not written with four keys, under either spelling: the
    two fields at their default are left out. *)
Lemma MessageToJson_keys_are_not_field_names :
  ~ (exists text members,
        pb_json.MessageToJson populated_token = Ok text
        /\ loads text = Some (JObj members)
        /\ List.map fst members
           = List.map processed_pb2.field_name processed_pb2.fields)
  /\ ~ (exists text members,
          pb_json.MessageToJson (processed_pb2.mkToken (lit "a") 0 0 3) = Ok text
          /\ loads text = Some (JObj members)
          /\ (List.map fst members
              = List.map processed_pb2.field_name processed_pb2.fields
              \/ List.map fst members
                 = List.map processed_pb2.json_name processed_pb2.fields)).
Proof.
  split.
  - intros (text & members & Htext & Hloads & Hkeys).
    rewrite populated_token_json in Htext. injection Htext as <-.
    vm_compute in Hloads. injection Hloads as <-.
    vm_compute in Hkeys. discriminate Hkeys.
  - intros (text & members & Htext & Hloads & Hkeys).
    vm_compute in Htext. injection Htext as <-.
    vm_compute in Hloads. injection Hloads as <-.
    vm_compute in Hkeys. destruct Hkeys as [H|H]; discriminate H.
Qed.

(** C3, amended: for every token, [MessageToJson] returns the text of a
    JSON object, laid out with an indent of two, that has one member for
    each field whose value differs from the field's default and none for
    the others, in declaration order; the key of a member is the JSON
    name of its field ([name], [index], [spanFrom], [spanTo]) and its
    value the field's value, the text quoted and escaped to ASCII by
    [py_encode_basestring_ascii], an integer as an unquoted decimal
    numeral.  When no field is at its default the four members are all
    there.  When the text field holds well-formed Unicode, reading the
    returned text gives back exactly those members, the name as a string
    and the integers as numbers; for a token the runtime lets exist,
    [Parse] gives back the token. *)
Theorem MessageToJson_every_token (t : processed_pb2.Token) :
  exists text members,
    pb_json.MessageToJson t = Ok text
    /\ members
       = List.map (fun f => (processed_pb2.json_name f,
                             json_of_value (processed_pb2.getattr t f)))
           (List.filter
              (fun f => negb (value_eqb (processed_pb2.getattr t f)
                                        (processed_pb2.default_value f)))
              processed_pb2.fields)
    /\ text = dumps (JObj members) (Some 2%nat) true
    /\ List.map processed_pb2.json_name processed_pb2.fields
       = [qlit "name"; qlit "index"; qlit "spanFrom"; qlit "spanTo"]
    /\ (populated t ->
        JObj members = token_object t /\ text = token_layout t)
    /\ (well_formed (processed_pb2.name t) -> loads text = Some (JObj members))
    /\ (valid_token t -> pb_json.Parse text empty_token = Ok t).
Proof.
  exists (dumps (JObj (members_of t)) (Some 2%nat) true), (members_of t).
  assert (Hjson : pb_json.MessageToJson t
                  = Ok (dumps (JObj (members_of t)) (Some 2%nat) true)).
  { unfold pb_json.MessageToJson, pb_json.MessageToJson_kw.
    rewrite MessageToJsonObject_members. reflexivity. }
  split; [exact Hjson|].
  split.
  { unfold members_of, processed_pb2.ListFields.
    cbn [List.map processed_pb2.fields List.filter fst snd
         processed_pb2.getattr processed_pb2.default_value
         processed_pb2.field_cpp_type value_eqb].
    split_on_defaults t; reflexivity. }
  split; [reflexivity|].
  split; [reflexivity|].
  split; [|split].
  - intros Hpop.
    pose proof (MessageToJsonObject_populated t Hpop) as Hobj.
    rewrite MessageToJsonObject_members in Hobj. injection Hobj as Hobj.
    split; [rewrite Hobj; reflexivity|].
    rewrite Hobj. apply dumps_token_object.
  - intros Hn. rewrite <- (app_nil_r (dumps _ _ _)).
    apply loads_dumps_flat; [apply members_of_flat, Hn | reflexivity].
  - intros Hv. destruct (Parse_MessageToJson t Hv) as (text & Htext & _ & Hparse).
    rewrite Hjson in Htext. injection Htext as <-. exact Hparse.
Qed.

(** The C3 theorem at a token with two fields at their default. *)
Lemma MessageToJson_every_token_witness :
  valid_token (processed_pb2.mkToken (lit "a") 0 0 3)
  /\ exists text,
       pb_json.MessageToJson (processed_pb2.mkToken (lit "a") 0 0 3) = Ok text
       /\ loads text = Some (JObj [(qlit "name", JStr (lit "a"));
                                   (qlit "spanTo", JInt 3)])
       /\ pb_json.Parse text empty_token
          = Ok (processed_pb2.mkToken (lit "a") 0 0 3).
Proof.
  assert (Hv : valid_token (processed_pb2.mkToken (lit "a") 0 0 3)).
  { split; [repeat constructor|]. unfold in_int32. cbn. lia. }
  split; [exact Hv|].
  destruct (MessageToJson_every_token (processed_pb2.mkToken (lit "a") 0 0 3))
    as (text & members & Hjson & Hmembers & _ & _ & _ & Hloads & Hparse).
  exists text. split; [exact Hjson|]. split; [|apply Hparse, Hv].
  rewrite (Hloads (proj1 Hv)), Hmembers. reflexivity.
Defined.

(** C4: what [main] prints is valid JSON.  Read back by [json.loads], it
    is the object the formatter wrote, with the four values assigned to
    the token under the JSON names of their fields; read back by [Parse]
    into a new message, it is the token itself, the four values under the
    four fields they were assigned to.  The value of the text field is
    written with the escape [\u00f0] for its last character and decodes to
    the original text ['orð']. *)
Theorem printed_text_parses_back (w : world) :
  exists w' text js,
    main w = Ok (tt, w')
    /\ stdout w' = stdout w ++ text
    /\ pb_json.MessageToJsonObject (pb_json.mkPrinter false false) populated_token
       = Ok js
    /\ loads text = Some js
    /\ js = JObj [(qlit "name", JStr name_literal);
                  (qlit "index", JInt 1);
                  (qlit "spanFrom", JInt 1);
                  (qlit "spanTo", JInt 4)]
    /\ pb_json.Parse text empty_token
       = Ok (processed_pb2.mkToken name_literal 1 1 4)
    /\ get js (qlit "name") = Some (JStr name_literal)
    /\ py_encode_basestring_ascii name_literal = qlit "'or\u00f0'"
    /\ scanstring (qlit "or\u00f0'") = Some (name_literal, []).
Proof.
  exists (after_print w program_text), (program_text ++ [NEWLINE]),
    (token_object populated_token).
  split; [apply main_runs|].
  split; [reflexivity|].
  split; [apply MessageToJsonObject_populated, populated_token_populated|].
  split; [apply program_text_loads|].
  repeat split; reflexivity.
Qed.

(** C5: the bytes the script writes do not depend on the run.  Whatever
    the arguments, the console encoding and the earlier content of the
    stream, two runs end normally and append the same bytes. *)
Theorem output_is_deterministic (w1 w2 : world) :
  exists out w1' w2',
    run_script w1 = Ok (tt, w1')
    /\ run_script w2 = Ok (tt, w2')
    /\ stdout w1' = stdout w1 ++ out
    /\ stdout w2' = stdout w2 ++ out
    /\ exit_status (run_script w1) = exit_status (run_script w2).
Proof.
  exists (program_text ++ [NEWLINE]),
    (after_print w1 program_text), (after_print w2 program_text).
  rewrite !run_script_runs. repeat split; reflexivity.
Qed.

(** C6: no step of [main] fails.  The construction, each of the four
    assignments, the serialization and the printing return normally, in
    every world, and so does [main]. *)
Theorem main_never_raises (w : world) :
  exists t0 t1 t2 t3 t4 json_repr w',
    processed_pb2.Token_new w = Ok (t0, w)
    /\ processed_pb2.setattr t0 (lit "name") (VStr name_literal) w = Ok (t1, w)
    /\ processed_pb2.setattr t1 (lit "index") (VInt 1) w = Ok (t2, w)
    /\ processed_pb2.setattr t2 (lit "span_from") (VInt 1) w = Ok (t3, w)
    /\ processed_pb2.setattr t3 (lit "span_to") (VInt 4) w = Ok (t4, w)
    /\ pb_json.MessageToJson t4 = Ok json_repr
    /\ print json_repr w = Ok (tt, w')
    /\ main w = Ok (tt, w').
Proof.
  do 5 eexists. exists program_text, (after_print w program_text).
  do 5 (split; [reflexivity|]).
  split; [apply populated_token_json|].
  split; [apply print_ascii, program_text_ascii | apply main_runs].
Qed.







(** C9: [main] prints what the formatter returned and does nothing else.
    Over any formatter, [main] is the formatter's result for the populated
    token handed to [print]; with [MessageToJson], the world after [main]
    is the world before with that text and a newline appended to the
    output and one more [print] recorded. *)
Theorem main_prints_formatter_result
    (to_json : processed_pb2.Token -> result pystr) (w : world) :
  main_over to_json w
  = match to_json populated_token with
    | Ok json_repr => print json_repr w
    | Raise e => Raise e
    end
  /\ exists json_repr,
       pb_json.MessageToJson populated_token = Ok json_repr
       /\ main w = Ok (tt, after_print w json_repr)
       /\ stdout (after_print w json_repr) = stdout w ++ json_repr ++ [NEWLINE]
       /\ printed (after_print w json_repr) = printed w ++ [json_repr].
Proof.
  split.
  - rewrite main_over_unfold. unfold bind, lift.
    destruct (to_json populated_token); reflexivity.
  - exists program_text. split; [apply populated_token_json|].
    split; [apply main_runs|]. split; reflexivity.
Qed.

(** C10: the guard.  Under any [__name__] other than ['__main__'] the
    module body returns with the world as it was: nothing is written and
    [main], which always writes, has not run.  Under ['__main__'] the body
    is [main]. *)
Theorem import_is_silent (dunder_name : pystr) (w : world) :
  dunder_name <> lit "__main__" ->
  module_body dunder_name w = Ok (tt, w)
  /\ main w <> Ok (tt, w)
  /\ module_body (lit "__main__") w = main w.
Proof.
  intros Hname. unfold module_body.
  rewrite (str_eqb_neq _ _ Hname).
  split; [reflexivity|]. split; [|reflexivity].
  rewrite main_runs. intros H. injection H as H.
  apply (f_equal (fun x => List.length (printed x))) in H.
  cbn [printed after_print] in H. rewrite length_app in H.
  cbn [List.length] in H. lia.
Qed.

(** The C10 theorem at [import main] in a fresh process. *)
Lemma import_is_silent_witness :
  lit "main" <> lit "__main__"
  /\ import_module (fresh [] utf_8) = Ok (tt, fresh [] utf_8).
Proof.
  split; [discriminate|].
  apply (import_is_silent (lit "main") (fresh [] utf_8)). discriminate.
Defined.

(** ** Beyond the literals of [main]: every token *)

Lemma hex_digit_printable (n : N) : printable (hex_digit (n mod 16)).
Proof.
  pose proof (N.mod_lt n 16) as H. specialize (H ltac:(discriminate)).
  set (m := n mod 16) in *. clearbody m.
  unfold hex_digit, printable.
  destruct (N.ltb_spec m 10); lia.
Qed.

Lemma u_escape_printable (n : N) : List.Forall printable (u_escape n).
Proof.
  unfold u_escape, hex4.
  repeat constructor; try apply hex_digit_printable; unfold BACKSLASH; lia.
Qed.

Lemma replace_ascii_printable (c : codepoint) :
  List.Forall printable (replace_ascii c).
Proof.
  unfold replace_ascii, ESCAPE_DCT.
  repeat match goal with
         | |- context [if ?b then _ else _] => destruct b
         end;
    try apply u_escape_printable;
    try (apply Forall_app; split; apply u_escape_printable);
    repeat constructor; unfold BACKSLASH, QUOTE; lia.
Qed.

Lemma escaped_printable (s : pystr) :
  List.Forall printable (py_encode_basestring_ascii s).
Proof.
  unfold py_encode_basestring_ascii.
  constructor; [unfold printable, QUOTE; lia|].
  apply Forall_app. split; [|repeat constructor; unfold QUOTE; lia].
  induction s as [|c r IH]; [constructor|].
  cbn [List.flat_map]. apply Forall_app. split; [|exact IH].
  unfold matches_ESCAPE_ASCII.
  destruct (N.eqb_spec c BACKSLASH); [apply replace_ascii_printable|].
  destruct (N.eqb_spec c QUOTE); [apply replace_ascii_printable|].
  cbn [orb].
  destruct (N.leb_spec SPACE c); cbn [andb negb];
    [|apply replace_ascii_printable].
  destruct (N.leb_spec c 126); cbn [negb]; [|apply replace_ascii_printable].
  repeat constructor; unfold SPACE in *; lia.
Qed.

Lemma uint_chars_printable (d : Decimal.uint) :
  List.Forall printable (uint_chars d).
Proof.
  induction d; cbn [uint_chars]; constructor; try assumption;
    unfold printable; lia.
Qed.

Lemma str_of_int_printable (z : Z) : List.Forall printable (str_of_int z).
Proof.
  assert (Hpos : forall p,
             lit (NilZero.string_of_uint (Pos.to_uint p)) = uint_chars (Pos.to_uint p)).
  { intros p. unfold NilZero.string_of_uint.
    destruct (Pos.to_uint p) eqn:E; try (rewrite <- lit_string_of_uint; reflexivity).
    destruct (to_uint_head p Decimal.Nil) as [_ H]. contradiction. }
  destruct z as [|p|p]; unfold str_of_int; cbn [Z.to_int NilZero.string_of_int].
  - repeat constructor; cbn; lia.
  - rewrite Hpos. apply uint_chars_printable.
  - change (lit (String "-" (NilZero.string_of_uint (Pos.to_uint p))))
      with (45 :: lit (NilZero.string_of_uint (Pos.to_uint p))).
    rewrite Hpos. constructor; [unfold printable; lia | apply uint_chars_printable].
Qed.

Lemma printable_ascii (l : pystr) : List.Forall printable l -> is_ascii l.
Proof.
  unfold is_ascii. apply Forall_impl. intros c [_ H]. lia.
Qed.

Lemma newline_indent_ascii (n level : nat) : is_ascii (newline_indent n level).
Proof.
  unfold newline_indent, is_ascii. constructor; [reflexivity|].
  apply Forall_forall. intros c Hc. apply repeat_spec in Hc. subst c. reflexivity.
Qed.

Lemma after_open_ascii indent level : is_ascii (after_open indent level).
Proof.
  unfold after_open. destruct indent; [apply newline_indent_ascii | constructor].
Qed.

Lemma before_close_ascii indent level : is_ascii (before_close indent level).
Proof.
  unfold before_close. destruct indent; [apply newline_indent_ascii | constructor].
Qed.

Lemma between_ascii indent level : is_ascii (between indent level).
Proof.
  unfold between. apply Forall_app. split; [|apply after_open_ascii].
  destruct indent; repeat constructor.
Qed.

Lemma lit_ascii_literal (s : string) :
  List.forallb (fun c => c <? 0x80) (lit s) = true -> is_ascii (lit s).
Proof.
  intros H. apply Forall_forall. intros c Hc.
  rewrite forallb_forall in H. apply N.ltb_lt, H, Hc.
Qed.

(** [json.dumps] with [ensure_ascii=True] writes ASCII only, whatever
    the value and the indent. *)
Lemma iterencode_ascii (indent : option nat) :
  forall (o : jvalue) (level : nat), is_ascii (iterencode true indent level o).
Proof.
  fix IH 1. intros o level. destruct o as [|b|z|s|items|members].
  - apply lit_ascii_literal. reflexivity.
  - destruct b; apply lit_ascii_literal; reflexivity.
  - apply printable_ascii, str_of_int_printable.
  - apply printable_ascii, escaped_printable.
  - destruct items as [|x xs]; [apply lit_ascii_literal; reflexivity|].
    cbn [iterencode].
    apply Forall_app. split; [apply lit_ascii_literal; reflexivity|].
    apply Forall_app. split; [apply after_open_ascii|].
    apply Forall_app. split; [apply IH|].
    apply Forall_app. split.
    + induction xs as [|y ys IHys]; [constructor|].
      apply Forall_app. split; [apply between_ascii|].
      apply Forall_app. split; [apply IH | exact IHys].
    + apply Forall_app. split;
        [apply before_close_ascii | apply lit_ascii_literal; reflexivity].
  - destruct members as [|[k v] kvs]; [apply lit_ascii_literal; reflexivity|].
    cbn [iterencode].
    apply Forall_app. split; [apply lit_ascii_literal; reflexivity|].
    apply Forall_app. split; [apply after_open_ascii|].
    apply Forall_app. split; [apply printable_ascii, escaped_printable|].
    apply Forall_app. split; [apply lit_ascii_literal; reflexivity|].
    apply Forall_app. split; [apply IH|].
    apply Forall_app. split.
    + induction kvs as [|[k' v'] l IHl]; [constructor|].
      apply Forall_app. split; [apply between_ascii|].
      apply Forall_app. split; [apply printable_ascii, escaped_printable|].
      apply Forall_app. split; [apply lit_ascii_literal; reflexivity|].
      apply Forall_app. split; [apply IH | exact IHl].
    + apply Forall_app. split;
        [apply before_close_ascii | apply lit_ascii_literal; reflexivity].
Qed.

Lemma printable_no_newline (l : pystr) :
  List.Forall printable l -> line_count l = 0%nat.
Proof.
  unfold line_count. induction 1 as [|c r [Hc _] _ IH]; [reflexivity|].
  cbn [List.count_occ]. destruct (N.eq_dec c NEWLINE) as [E|_]; [|exact IH].
  unfold NEWLINE in E. lia.
Qed.



Lemma newline_indent_lines (n level : nat) :
  line_count (newline_indent n level) = 1%nat.
Proof.
  unfold line_count, newline_indent. cbn [List.count_occ].
  destruct (N.eq_dec NEWLINE NEWLINE) as [_|H]; [|contradiction].
  f_equal. apply count_occ_not_In. intros H. apply repeat_spec in H. discriminate H.
Qed.

Lemma line_count_app (a b : pystr) :
  line_count (a ++ b) = (line_count a + line_count b)%nat.
Proof. apply count_occ_app. Qed.

Lemma written_scalar_lines indent level (v : jvalue) :
  written_scalar v -> line_count (iterencode true indent level v) = 0%nat.
Proof.
  destruct v; try contradiction; intros _; apply printable_no_newline;
    [apply str_of_int_printable | apply escaped_printable].
Qed.

Lemma more_members_lines (n level : nat) (l : list (pystr * jvalue)) :
  List.Forall (fun kv => written_scalar (snd kv)) l ->
  line_count (more_members true (Some n) level l) = List.length l.
Proof.
  induction 1 as [|[k v] l Hv _ IH]; [reflexivity|].
  cbn [more_members List.length]. unfold between, after_open, item_separator.
  rewrite !line_count_app, newline_indent_lines, IH.
  rewrite (written_scalar_lines (Some n) (S level) v Hv).
  unfold encoder. rewrite (printable_no_newline _ (escaped_printable k)).
  reflexivity.
Qed.

Lemma dumps_lines (n : nat) (kvs : list (pystr * jvalue)) :
  List.Forall (fun kv => written_scalar (snd kv)) kvs ->
  line_count (dumps (JObj kvs) (Some n) true ++ [NEWLINE])
  = match kvs with
    | [] => 1%nat
    | _ :: _ => (List.length kvs + 2)%nat
    end.
Proof.
  intros H. unfold dumps. destruct kvs as [|[k v] l]; [reflexivity|].
  inversion H as [|? ? Hv Hl]; subst. cbn [snd] in Hv.
  rewrite iterencode_object. unfold after_open, before_close.
  rewrite !line_count_app, !newline_indent_lines.
  rewrite (more_members_lines n 0 l Hl).
  rewrite (written_scalar_lines (Some n) 1 v Hv).
  unfold encoder. rewrite (printable_no_newline _ (escaped_printable k)).
  cbn. lia.
Qed.

Lemma members_of_written (t : processed_pb2.Token) :
  List.Forall (fun kv => written_scalar (snd kv)) (members_of t).
Proof.
  unfold members_of. apply Forall_forall. intros kv Hkv.
  apply in_map_iff in Hkv. destruct Hkv as ([f v] & <- & _).
  cbn [snd]. destruct v; exact I.
Qed.

(** X3: the text [MessageToJson] returns has one line for each set field
    and one for each brace, or the single line [{}] when no field is set:
    whatever a field holds, a line break in the text field included, its
    value stays on its line. *)
Theorem one_line_per_set_field (t : processed_pb2.Token) :
  exists text,
    pb_json.MessageToJson t = Ok text
    /\ line_count (text ++ [NEWLINE])
       = match processed_pb2.ListFields t with
         | [] => 1%nat
         | _ :: _ => (List.length (processed_pb2.ListFields t) + 2)%nat
         end.
Proof.
  exists (dumps (JObj (members_of t)) (Some 2%nat) true). split.
  - unfold pb_json.MessageToJson, pb_json.MessageToJson_kw.
    rewrite MessageToJsonObject_members. reflexivity.
  - rewrite (dumps_lines 2 _ (members_of_written t)).
    unfold members_of. rewrite length_map.
    destruct (processed_pb2.ListFields t); reflexivity.
Qed.

(** X2: for every token the text [MessageToJson] returns is ASCII, so that
    [print] cannot fail on it: under each console encoding it appends the
    same bytes, the text and a newline. *)
Theorem every_token_prints (t : processed_pb2.Token) (w : world) :
  exists text,
    pb_json.MessageToJson t = Ok text
    /\ is_ascii text
    /\ print text w = Ok (tt, after_print w text).
Proof.
  exists (dumps (JObj (members_of t)) (Some 2%nat) true).
  assert (Hascii : is_ascii (dumps (JObj (members_of t)) (Some 2%nat) true))
    by apply iterencode_ascii.
  split; [|split; [exact Hascii|]].
  - unfold pb_json.MessageToJson, pb_json.MessageToJson_kw.
    rewrite MessageToJsonObject_members. reflexivity.
  - apply print_ascii. apply Forall_app. split; [exact Hascii|].
    repeat constructor.
Qed.


